(** * vnl_quaternion: rotations as quaternions

    A shallow embedding of [core/vnl/vnl_quaternion.txx].  The scalar type
    [T] of the template is read as the real numbers [R]: every conversion
    [T(...)] and [double(...)] of the source is then the identity, and
    [vcl_sqrt], [vcl_sin], [vcl_cos] are [sqrt], [sin], [cos] of the
    Standard Library.  Comparisons of scalars ([==], [>]) are the decidable
    comparisons [Req_dec_T] and [Rgt_dec].

    [axis()] branches on [mag == T(0)], a test whose outcome depends on the
    rounding of the scalar type; it is therefore given a second time, at
    [T = double], over the binary64 numbers of the kernel. *)

From Stdlib Require Import PrimFloat.
From Stdlib Require Import Reals Lra RNsatz List String.
Import ListNotations.

Open Scope R_scope.

(** ** The linear-algebra leaves *)

(** [vnl_vector_fixed<T,3>]: three scalars, indexed 0..2. *)
Record vnl_vector_fixed3 : Type := mkV3 { v0 : R; v1 : R; v2 : R }.

(** [vnl_matrix_fixed<T,3,3>]: nine scalars, [mIJ] is the element [(I,J)]. *)
Record vnl_matrix_fixed33 : Type := mkM33 {
  m00 : R; m01 : R; m02 : R;
  m10 : R; m11 : R; m12 : R;
  m20 : R; m21 : R; m22 : R }.

(** [vnl_matrix_fixed<T,4,4>]. *)
Record vnl_matrix_fixed44 : Type := mkM44 {
  a00 : R; a01 : R; a02 : R; a03 : R;
  a10 : R; a11 : R; a12 : R; a13 : R;
  a20 : R; a21 : R; a22 : R; a23 : R;
  a30 : R; a31 : R; a32 : R; a33 : R }.

(** Modelled from the spec: [operator+] of [vnl_vector_fixed.h], which is
    not among the sources; the spec asks of Vec3 "norm, cross product, dot
    product, scalar scale/add".  The component-wise sum. *)
Definition vadd (a b : vnl_vector_fixed3) : vnl_vector_fixed3 :=
  mkV3 (v0 a + v0 b) (v1 a + v1 b) (v2 a + v2 b).

(** Modelled from the spec: [operator-] of [vnl_vector_fixed.h] (absent),
    the component-wise difference. *)
Definition vsub (a b : vnl_vector_fixed3) : vnl_vector_fixed3 :=
  mkV3 (v0 a - v0 b) (v1 a - v1 b) (v2 a - v2 b).

(** Modelled from the spec: [operator*] by a scalar, of
    [vnl_vector_fixed.h] (absent). *)
Definition vscale (a : vnl_vector_fixed3) (s : R) : vnl_vector_fixed3 :=
  mkV3 (v0 a * s) (v1 a * s) (v2 a * s).

(** Modelled from the spec: [operator/=] by a scalar, of
    [vnl_vector_fixed.h] (absent). *)
Definition vdiv (a : vnl_vector_fixed3) (s : R) : vnl_vector_fixed3 :=
  mkV3 (v0 a / s) (v1 a / s) (v2 a / s).

(** Modelled from the spec: [dot_product] of [vnl_vector_fixed.h] (absent),
    the sum of the products of the components. *)
Definition dot_product (a b : vnl_vector_fixed3) : R :=
  v0 a * v0 b + v1 a * v1 b + v2 a * v2 b.

(** Modelled from the spec: [vnl_cross_3d] of [vnl_cross.h] (absent), the
    right-handed cross product of two 3-vectors. *)
Definition vnl_cross_3d (a b : vnl_vector_fixed3) : vnl_vector_fixed3 :=
  mkV3 (v1 a * v2 b - v2 a * v1 b)
       (v2 a * v0 b - v0 a * v2 b)
       (v0 a * v1 b - v1 a * v0 b).

(** Modelled from the spec: [magnitude] of [vnl_vector_fixed.h] (absent), the
    Euclidean norm. *)
Definition magnitude (a : vnl_vector_fixed3) : R :=
  sqrt (v0 a * v0 a + v1 a * v1 a + v2 a * v2 a).

(** Modelled from the spec: [transpose] of [vnl_matrix_fixed.h] (absent). *)
Definition transpose (m : vnl_matrix_fixed33) : vnl_matrix_fixed33 :=
  mkM33 (m00 m) (m10 m) (m20 m)
        (m01 m) (m11 m) (m21 m)
        (m02 m) (m12 m) (m22 m).

(** Modelled from the spec: the product matrix * column vector of
    [vnl_matrix_fixed.h] (absent): "v transformed by the matrix". *)
Definition mat_vec (m : vnl_matrix_fixed33) (v : vnl_vector_fixed3)
  : vnl_vector_fixed3 :=
  mkV3 (m00 m * v0 v + m01 m * v1 v + m02 m * v2 v)
       (m10 m * v0 v + m11 m * v1 v + m12 m * v2 v)
       (m20 m * v0 v + m21 m * v1 v + m22 m * v2 v).

(** Modelled from the spec: [set_identity] of [vnl_matrix_fixed.h] (absent). *)
Definition set_identity : vnl_matrix_fixed44 :=
  mkM44 1 0 0 0
        0 1 0 0
        0 0 1 0
        0 0 0 1.

(** Modelled from the spec: [update] of [vnl_matrix_fixed.h] (absent), with
    its default position [(0,0)]: the 3x3 block overwrites the upper left
    corner, the last row and column are kept. *)
Definition update (m : vnl_matrix_fixed44) (s : vnl_matrix_fixed33)
  : vnl_matrix_fixed44 :=
  mkM44 (m00 s) (m01 s) (m02 s) (a03 m)
        (m10 s) (m11 s) (m12 s) (a13 m)
        (m20 s) (m21 s) (m22 s) (a23 m)
        (a30 m) (a31 m) (a32 m) (a33 m).

(** Modelled from the spec: [vcl_atan2] is the C library's [atan2], whose
    body is not among the sources; the spec only names it.  It is given its
    mathematical meaning: the principal argument, in (-PI, PI], of the point
    with abscissa [c] and ordinate [s], and 0 at the origin. *)
Definition atan2 (s c : R) : R :=
  if Rlt_dec 0 c then atan (s / c)
  else if Rlt_dec c 0 then
         if Rle_dec 0 s then atan (s / c) + PI else atan (s / c) - PI
       else if Rlt_dec 0 s then PI / 2
            else if Rlt_dec s 0 then - (PI / 2)
                 else 0.

(** ** The quaternion *)

(** Four scalars, as [vnl_quaternion(x, y, z, r)] stores them: elements
    0..2 of the underlying 4-vector are the imaginary part, element 3 is the
    real part.  The fields are the accessors [x()], [y()], [z()], [r()]. *)
Record vnl_quaternion : Type := mkQ { x : R; y : R; z : R; r : R }.

(** Modelled from the spec: [real()] of [vnl_quaternion.h] (absent), "the
    scalar component r". *)
Definition real (q : vnl_quaternion) : R := r q.

(** Modelled from the spec: [imaginary()] of [vnl_quaternion.h] (absent),
    "the 3-component subvector (x,y,z)". *)
Definition imaginary (q : vnl_quaternion) : vnl_vector_fixed3 :=
  mkV3 (x q) (y q) (z q).

(** [vnl_quaternion(axis, angle)]. *)
Definition of_axis_angle (axis : vnl_vector_fixed3) (angle : R)
  : vnl_quaternion :=
  let a := angle * (5 / 10) in
  let s := sin a in
  mkQ (s * v0 axis) (s * v1 axis) (s * v2 axis) (cos a).

(** [vnl_quaternion(vec)] for a 3-vector: the imaginary quaternion. *)
Definition of_vector (vec : vnl_vector_fixed3) : vnl_quaternion :=
  mkQ (v0 vec) (v1 vec) (v2 vec) 0.

(** [vnl_quaternion(rot)] for a 3x3 matrix. *)
Definition of_matrix (rot : vnl_matrix_fixed33) : vnl_quaternion :=
  let d0 := m00 rot in
  let d1 := m11 rot in
  let d2 := m22 rot in
  let xx := 1 + d0 - d1 - d2 in
  let yy := 1 - d0 + d1 - d2 in
  let zz := 1 - d0 - d1 + d2 in
  let rr := 1 + d0 + d1 + d2 in
  let max := rr in
  let max := if Rgt_dec xx max then xx else max in
  let max := if Rgt_dec yy max then yy else max in
  let max := if Rgt_dec zz max then zz else max in
  if Req_dec_T rr max then
    let r4 := sqrt (rr * 4) in
    mkQ ((m12 rot - m21 rot) / r4)
        ((m20 rot - m02 rot) / r4)
        ((m01 rot - m10 rot) / r4)
        (r4 / 4)
  else if Req_dec_T xx max then
    let x4 := sqrt (xx * 4) in
    mkQ (x4 / 4)
        ((m01 rot + m10 rot) / x4)
        ((m02 rot + m20 rot) / x4)
        ((m12 rot - m21 rot) / x4)
  else if Req_dec_T yy max then
    let y4 := sqrt (yy * 4) in
    mkQ ((m01 rot + m10 rot) / y4)
        (y4 / 4)
        ((m12 rot + m21 rot) / y4)
        ((m20 rot - m02 rot) / y4)
  else
    let z4 := sqrt (zz * 4) in
    mkQ ((m02 rot + m20 rot) / z4)
        ((m12 rot + m21 rot) / z4)
        (z4 / 4)
        ((m01 rot - m10 rot) / z4).

(** [rotation_matrix_transpose()]. *)
Definition rotation_matrix_transpose (q : vnl_quaternion)
  : vnl_matrix_fixed33 :=
  let x2 := x q * x q in let xy := x q * y q in let rx := r q * x q in
  let y2 := y q * y q in let yz := y q * z q in let ry := r q * y q in
  let z2 := z q * z q in let zx := z q * x q in let rz := r q * z q in
  let r2 := r q * r q in
  mkM33 (r2 + x2 - y2 - z2) (2 * (xy + rz))       (2 * (zx - ry))
        (2 * (xy - rz))     (r2 - x2 + y2 - z2)   (2 * (yz + rx))
        (2 * (zx + ry))     (2 * (yz - rx))       (r2 - x2 - y2 + z2).

(** [rotation_matrix_transpose_4()]. *)
Definition rotation_matrix_transpose_4 (q : vnl_quaternion)
  : vnl_matrix_fixed44 :=
  update set_identity (rotation_matrix_transpose q).

(** [conjugate()]. *)
Definition conjugate (q : vnl_quaternion) : vnl_quaternion :=
  mkQ (- x q) (- y q) (- z q) (r q).

(** Modelled from the spec: [vnl_c_vector<T>::dot_product(data_, data_, 4)]
    of [vnl_c_vector.h] (absent), "the squared 4-vector norm
    (x^2+y^2+z^2+r^2)". *)
Definition squared_norm (q : vnl_quaternion) : R :=
  x q * x q + y q * y q + z q * z q + r q * r q.

(** [inverse()]: the conjugate, every component divided by the squared
    norm. *)
Definition inverse (q : vnl_quaternion) : vnl_quaternion :=
  let inv := conjugate q in
  let d := squared_norm q in
  mkQ (x inv / d) (y inv / d) (z inv / d) (r inv / d).

(** [operator*]. *)
Definition qmul (q rhs : vnl_quaternion) : vnl_quaternion :=
  let r1 := real q in
  let r2 := real rhs in
  let i1 := imaginary q in
  let i2 := imaginary rhs in
  let real_v := r1 * r2 - dot_product i1 i2 in
  let img := vnl_cross_3d i1 i2 in
  let img := vadd img (vadd (vscale i2 r1) (vscale i1 r2)) in
  mkQ (v0 img) (v1 img) (v2 img) real_v.

(** [rotate(v)]. *)
Definition rotate (q : vnl_quaternion) (v : vnl_vector_fixed3)
  : vnl_vector_fixed3 :=
  let r := real q in
  let i := imaginary q in
  let i_x_v := vnl_cross_3d i v in
  vsub (vadd v (vscale i_x_v (2 * r))) (vscale (vnl_cross_3d i_x_v i) 2).

(** [vnl_quaternion(theta_X, theta_Y, theta_Z)]. *)
Definition of_euler (theta_X theta_Y theta_Z : R) : vnl_quaternion :=
  let Rx := mkQ (sin (theta_X * (5 / 10))) 0 0 (cos (theta_X * (5 / 10))) in
  let Ry := mkQ 0 (sin (theta_Y * (5 / 10))) 0 (cos (theta_Y * (5 / 10))) in
  let Rz := mkQ 0 0 (sin (theta_Z * (5 / 10))) (cos (theta_Z * (5 / 10))) in
  qmul (qmul Rz Ry) Rx.

(** [angle()]. *)
Definition angle (q : vnl_quaternion) : R :=
  2 * atan2 (magnitude (imaginary q)) (real q).

(** The line [axis()] writes to [vcl_cout] when the axis is undefined, with
    its end of line. *)
Definition axis_diagnostic : string :=
  "Axis not well defined for zero Quaternion. Using (0,0,1) instead."
  ++ String (Ascii.ascii_of_nat 10) EmptyString.

(** [axis()]: the returned direction, together with what was written to
    [vcl_cout] (nothing, or the diagnostic line).  In the degenerate branch
    only element 2 of [direc] is assigned. *)
Definition axis (q : vnl_quaternion) : vnl_vector_fixed3 * list string :=
  let direc := imaginary q in
  let mag := magnitude direc in
  if Req_dec_T mag 0 then
    (mkV3 (v0 direc) (v1 direc) 1, [axis_diagnostic])
  else
    (vdiv direc mag, []).

Section Euler.

(** [vcl_numeric_limits<T>::epsilon()], a constant of the scalar type that
    the sources do not fix. *)
Variable epsilon : R.

(** [rotation_euler_angles()]. *)
Definition rotation_euler_angles (q : vnl_quaternion) : vnl_vector_fixed3 :=
  let rotM := rotation_matrix_transpose_4 q in
  let xy := sqrt (a00 rotM * a00 rotM + a01 rotM * a01 rotM) in
  if Rgt_dec xy (epsilon * 8) then
    mkV3 (atan2 (a12 rotM) (a22 rotM))
         (atan2 (- a02 rotM) xy)
         (atan2 (a01 rotM) (a00 rotM))
  else
    mkV3 (atan2 (- a21 rotM) (a11 rotM))
         (atan2 (- a02 rotM) xy)
         0.

End Euler.

(** The four candidate terms of [of_matrix], named after the source's
    variables [rr], [xx], [yy], [zz]. *)
Inductive diagonal_term : Type := Term_rr | Term_xx | Term_yy | Term_zz.

Definition term_value (rot : vnl_matrix_fixed33) (t : diagonal_term) : R :=
  match t with
  | Term_rr => 1 + m00 rot + m11 rot + m22 rot
  | Term_xx => 1 + m00 rot - m11 rot - m22 rot
  | Term_yy => 1 - m00 rot + m11 rot - m22 rot
  | Term_zz => 1 - m00 rot - m11 rot + m22 rot
  end.

(** The place of a term in the order in which [of_matrix] tests them. *)
Definition term_rank (t : diagonal_term) : nat :=
  match t with
  | Term_rr => 0
  | Term_xx => 1
  | Term_yy => 2
  | Term_zz => 3
  end.

(** The branch [of_matrix] takes: its comparisons, the branch bodies left
    out. *)
Definition selected_term (rot : vnl_matrix_fixed33) : diagonal_term :=
  let xx := term_value rot Term_xx in
  let yy := term_value rot Term_yy in
  let zz := term_value rot Term_zz in
  let rr := term_value rot Term_rr in
  let max := rr in
  let max := if Rgt_dec xx max then xx else max in
  let max := if Rgt_dec yy max then yy else max in
  let max := if Rgt_dec zz max then zz else max in
  if Req_dec_T rr max then Term_rr
  else if Req_dec_T xx max then Term_xx
  else if Req_dec_T yy max then Term_yy
  else Term_zz.

(** The body of each branch of [of_matrix]: with [n = sqrt (term * 4)], the
    component of the term is [n / 4] and the three others are the matched
    off-diagonal differences and sums divided by [n]. *)
Definition derive (rot : vnl_matrix_fixed33) (t : diagonal_term)
  : vnl_quaternion :=
  let n := sqrt (term_value rot t * 4) in
  match t with
  | Term_rr => mkQ ((m12 rot - m21 rot) / n) ((m20 rot - m02 rot) / n)
                   ((m01 rot - m10 rot) / n) (n / 4)
  | Term_xx => mkQ (n / 4) ((m01 rot + m10 rot) / n)
                   ((m02 rot + m20 rot) / n) ((m12 rot - m21 rot) / n)
  | Term_yy => mkQ ((m01 rot + m10 rot) / n) (n / 4)
                   ((m12 rot + m21 rot) / n) ((m20 rot - m02 rot) / n)
  | Term_zz => mkQ ((m02 rot + m20 rot) / n) ((m12 rot + m21 rot) / n)
                   (n / 4) ((m01 rot - m10 rot) / n)
  end.

(** Modelled from the spec: unary minus of [vnl_vector_fixed.h] (absent); the
    quaternion [-q] represents the same rotation as [q]. *)
Definition qopp (q : vnl_quaternion) : vnl_quaternion :=
  mkQ (- x q) (- y q) (- z q) (- r q).

(** A matrix whose diagonal terms and off-diagonal differences and sums are
    those of the quaternion [q]. *)
Definition encodes (m : vnl_matrix_fixed33) (q : vnl_quaternion) : Prop :=
  term_value m Term_rr = 4 * (r q * r q)
  /\ term_value m Term_xx = 4 * (x q * x q)
  /\ term_value m Term_yy = 4 * (y q * y q)
  /\ term_value m Term_zz = 4 * (z q * z q)
  /\ m12 m - m21 m = 4 * (r q * x q)
  /\ m20 m - m02 m = 4 * (r q * y q)
  /\ m01 m - m10 m = 4 * (r q * z q)
  /\ m01 m + m10 m = 4 * (x q * y q)
  /\ m02 m + m20 m = 4 * (z q * x q)
  /\ m12 m + m21 m = 4 * (y q * z q).

(** [vnl_vector_fixed<T,4>]: four scalars, indexed 0..3. *)
Record vnl_vector_fixed4 : Type := mkV4 { w0 : R; w1 : R; w2 : R; w3 : R }.

(** [vnl_quaternion(vec)] for a 4-vector: element [i] of the quaternion is
    element [i] of the vector. *)
Definition of_vector4 (vec : vnl_vector_fixed4) : vnl_quaternion :=
  mkQ (w0 vec) (w1 vec) (w2 vec) (w3 vec).

(** The quaternion (0,0,0,1), zero imaginary part and real part 1, which the
    comments of the source call the null quaternion, "a null rotation or an
    identity transform". *)
Definition null_quaternion : vnl_quaternion := mkQ 0 0 0 1.

(** Modelled from the spec: the product of two 3x3 matrices, [operator*] of
    [vnl_matrix_fixed.h] (absent), rows by columns. *)
Definition mat_mul (a b : vnl_matrix_fixed33) : vnl_matrix_fixed33 :=
  mkM33 (m00 a * m00 b + m01 a * m10 b + m02 a * m20 b)
        (m00 a * m01 b + m01 a * m11 b + m02 a * m21 b)
        (m00 a * m02 b + m01 a * m12 b + m02 a * m22 b)
        (m10 a * m00 b + m11 a * m10 b + m12 a * m20 b)
        (m10 a * m01 b + m11 a * m11 b + m12 a * m21 b)
        (m10 a * m02 b + m11 a * m12 b + m12 a * m22 b)
        (m20 a * m00 b + m21 a * m10 b + m22 a * m20 b)
        (m20 a * m01 b + m21 a * m11 b + m22 a * m21 b)
        (m20 a * m02 b + m21 a * m12 b + m22 a * m22 b).

(** Modelled from the spec: the 3x3 identity matrix, [set_identity] of
    [vnl_matrix_fixed.h] (absent). *)
Definition identity33 : vnl_matrix_fixed33 :=
  mkM33 1 0 0
        0 1 0
        0 0 1.

(** The component of a quaternion that belongs to a diagonal term. *)
Definition component (q : vnl_quaternion) (t : diagonal_term) : R :=
  match t with
  | Term_rr => r q
  | Term_xx => x q
  | Term_yy => y q
  | Term_zz => z q
  end.

(** ** [axis()] at [T = double] *)







(** ** Proof support *)

(** Unfolds the vector and quaternion operations down to the scalars. *)
Ltac unfold_vnl :=
  cbv [squared_norm qmul rotate conjugate inverse real imaginary of_vector
       dot_product vnl_cross_3d vadd vsub vscale vdiv mat_vec transpose
       rotation_matrix_transpose rotation_matrix_transpose_4 update
       set_identity
       x y z r v0 v1 v2
       m00 m01 m02 m10 m11 m12 m20 m21 m22
       a00 a01 a02 a03 a10 a11 a12 a13 a20 a21 a22 a23 a30 a31 a32 a33].

(** The same in the goal and in every hypothesis. *)
Ltac unfold_vnl_all :=
  cbv [squared_norm qmul rotate conjugate inverse real imaginary of_vector
       dot_product vnl_cross_3d vadd vsub vscale vdiv mat_vec transpose
       rotation_matrix_transpose
       x y z r v0 v1 v2
       m00 m01 m02 m10 m11 m12 m20 m21 m22] in *.

(** The same, with the matrix product and the constants. *)
Ltac unfold_mat :=
  cbv [mat_mul identity33 null_quaternion qopp]; unfold_vnl.

(** Settles the comparisons of scalars, innermost first, and closes the
    cases the context excludes. *)
Ltac no_test t :=
  lazymatch t with
  | context [Rgt_dec _ _] => fail
  | context [Rlt_dec _ _] => fail
  | context [Rle_dec _ _] => fail
  | context [Req_dec_T _ _] => fail
  | _ => idtac
  end.

Ltac decide_R :=
  repeat match goal with
         | |- context [Rgt_dec ?a ?b] =>
             no_test a; no_test b; destruct (Rgt_dec a b); try lra
         | |- context [Rlt_dec ?a ?b] =>
             no_test a; no_test b; destruct (Rlt_dec a b); try lra
         | |- context [Rle_dec ?a ?b] =>
             no_test a; no_test b; destruct (Rle_dec a b); try lra
         | |- context [Req_dec_T ?a ?b] =>
             no_test a; no_test b; destruct (Req_dec_T a b); try lra
         end;
  try congruence.

(** Splits on the sign of a component whose square is at least 1/4. *)
Ltac by_sign c H :=
  assert (c <> 0) by (intros ->; lra);
  destruct (Rcase_abs c);
  [ right; rewrite (Rabs_left c) by assumption
  | left; rewrite (Rabs_right c) by assumption ];
  f_equal; try rewrite H; field; lra.

(** ** Algebra *)

Lemma squared_norm_mult (q1 q2 : vnl_quaternion) :
  squared_norm (qmul q1 q2) = squared_norm q1 * squared_norm q2.
Proof.
  destruct q1, q2. unfold_vnl. ring.
Qed.

Lemma qmul_unit (q1 q2 : vnl_quaternion) :
  squared_norm q1 = 1 -> squared_norm q2 = 1 ->
  squared_norm (qmul q1 q2) = 1.
Proof.
  intros H1 H2. rewrite squared_norm_mult, H1, H2. ring.
Qed.

(** C10: the squared norm is multiplicative, for all quaternions; hence the
    product of two unit quaternions is a unit quaternion. *)
Theorem squared_norm_qmul (q1 q2 : vnl_quaternion) :
  squared_norm (qmul q1 q2) = squared_norm q1 * squared_norm q2
  /\ (squared_norm q1 = 1 -> squared_norm q2 = 1 ->
      squared_norm (qmul q1 q2) = 1).
Proof.
  split; [apply squared_norm_mult | apply qmul_unit].
Qed.

(** Witness of C10: the product of two unit quaternions. *)
Lemma squared_norm_qmul_witness :
  squared_norm (qmul (mkQ (3/5) 0 0 (4/5)) (mkQ 0 1 0 0)) = 1.
Proof.
  apply (proj2 (squared_norm_qmul (mkQ (3/5) 0 0 (4/5)) (mkQ 0 1 0 0)));
    unfold_vnl; lra.
Defined.

(** C9: for a unit quaternion, [inverse()] (the conjugate divided component
    by component by the squared norm) is the conjugate. *)
Theorem inverse_unit_conjugate (q : vnl_quaternion) :
  squared_norm q = 1 -> inverse q = conjugate q.
Proof.
  intros H. unfold inverse. rewrite H.
  destruct q as [qx qy qz qr]. unfold_vnl.
  f_equal; field.
Qed.

Lemma inverse_unit_conjugate_witness :
  inverse (mkQ (3/5) 0 (4/5) 0) = conjugate (mkQ (3/5) 0 (4/5) 0).
Proof.
  apply inverse_unit_conjugate. unfold_vnl. lra.
Defined.

(** ** Rotation of vectors *)

(** For a unit quaternion [rotate] is the sandwich product [q * v * q^-1],
    whose real part vanishes. *)
Lemma rotate_sandwich (q : vnl_quaternion) (v : vnl_vector_fixed3) :
  squared_norm q = 1 ->
  qmul (qmul q (of_vector v)) (conjugate q) = of_vector (rotate q v).
Proof.
  destruct q as [qx qy qz qr], v as [a b c]. unfold_vnl. intros H.
  f_equal; try ring; nsatz.
Qed.

Lemma qmul_assoc (p q s : vnl_quaternion) :
  qmul (qmul p q) s = qmul p (qmul q s).
Proof.
  destruct p, q, s. unfold_vnl. f_equal; ring.
Qed.

Lemma conjugate_qmul (p q : vnl_quaternion) :
  conjugate (qmul p q) = qmul (conjugate q) (conjugate p).
Proof.
  destruct p, q. unfold_vnl. f_equal; ring.
Qed.

Lemma of_vector_inj (u v : vnl_vector_fixed3) :
  of_vector u = of_vector v -> u = v.
Proof.
  destruct u, v. unfold of_vector. simpl. intros E.
  injection E as -> -> ->. reflexivity.
Qed.

(** The product as the source computes it, in terms of the real and
    imaginary parts of the factors. *)
Lemma qmul_parts (q1 q2 : vnl_quaternion) :
  real (qmul q1 q2)
  = real q1 * real q2 - dot_product (imaginary q1) (imaginary q2)
  /\ imaginary (qmul q1 q2)
    = vadd (vnl_cross_3d (imaginary q1) (imaginary q2))
           (vadd (vscale (imaginary q2) (real q1))
                 (vscale (imaginary q1) (real q2))).
Proof.
  split; reflexivity.
Qed.

(** C2: rotating by [q1] and then by [q2] is rotating by [q2 * q1], for unit
    quaternions [q1], [q2] and every vector [v]; the product has real part
    [r1 r2 - i1.i2] and imaginary part [i1 x i2 + r1 i2 + r2 i1]. *)
Theorem rotate_compose (q1 q2 : vnl_quaternion) (v : vnl_vector_fixed3) :
  squared_norm q1 = 1 -> squared_norm q2 = 1 ->
  rotate q2 (rotate q1 v) = rotate (qmul q2 q1) v
  /\ real (qmul q2 q1)
    = real q2 * real q1 - dot_product (imaginary q2) (imaginary q1)
  /\ imaginary (qmul q2 q1)
    = vadd (vnl_cross_3d (imaginary q2) (imaginary q1))
           (vadd (vscale (imaginary q1) (real q2))
                 (vscale (imaginary q2) (real q1))).
Proof.
  intros H1 H2. split; [|apply qmul_parts].
  apply of_vector_inj.
  rewrite <- (rotate_sandwich q2 _ H2), <- (rotate_sandwich q1 _ H1).
  rewrite <- rotate_sandwich by (apply qmul_unit; assumption).
  rewrite conjugate_qmul. now rewrite !qmul_assoc.
Qed.

Lemma rotate_compose_witness :
  let q1 := mkQ (3/5) 0 0 (4/5) in
  let q2 := mkQ 0 (5/13) 0 (12/13) in
  let v := mkV3 1 2 3 in
  rotate q2 (rotate q1 v) = rotate (qmul q2 q1) v.
Proof.
  intros q1 q2 v.
  apply (proj1 (rotate_compose q1 q2 v
                  ltac:(unfold q1; unfold_vnl; lra)
                  ltac:(unfold q2; unfold_vnl; lra))).
Defined.

(** C3: for a unit quaternion the cross-product formula of [rotate] gives
    the vector transformed by the transpose of [rotation_matrix_transpose]. *)
Theorem rotate_matrix (q : vnl_quaternion) (v : vnl_vector_fixed3) :
  squared_norm q = 1 ->
  rotate q v
  = vsub (vadd v (vscale (vnl_cross_3d (imaginary q) v) (2 * real q)))
         (vscale (vnl_cross_3d (vnl_cross_3d (imaginary q) v) (imaginary q)) 2)
  /\ rotate q v = mat_vec (transpose (rotation_matrix_transpose q)) v.
Proof.
  intros H. split; [reflexivity|].
  destruct q as [qx qy qz qr], v as [a b c]. revert H. unfold_vnl. intros H.
  f_equal; nsatz.
Qed.

Lemma rotate_matrix_witness :
  let q := mkQ (3/5) 0 0 (4/5) in
  let v := mkV3 1 2 3 in
  rotate q v = mat_vec (transpose (rotation_matrix_transpose q)) v.
Proof.
  intros q v.
  apply (proj2 (rotate_matrix q v ltac:(unfold q; unfold_vnl; lra))).
Defined.

(** ** The rotation axis *)

Lemma sqrt_of_square (a b : R) : 0 <= b -> b * b = a -> sqrt a = b.
Proof.
  intros Hb E. apply sqrt_lem_1; [rewrite <- E; nra | exact Hb | exact E].
Qed.

Lemma magnitude_zero (v : vnl_vector_fixed3) :
  magnitude v = 0 <-> v = mkV3 0 0 0.
Proof.
  destruct v as [a b c]. unfold magnitude. simpl. split.
  - intros H. apply sqrt_eq_0 in H; [|nra].
    assert (a = 0) by nra. assert (b = 0) by nra. assert (c = 0) by nra.
    subst. reflexivity.
  - intros E. injection E as -> -> ->.
    apply sqrt_of_square; lra.
Qed.

Lemma axis_zero (q : vnl_quaternion) :
  imaginary q = mkV3 0 0 0 -> axis q = (mkV3 0 0 1, [axis_diagnostic]).
Proof.
  intros H. unfold axis.
  destruct (Req_dec_T (magnitude (imaginary q)) 0) as [_|N].
  - rewrite H. reflexivity.
  - exfalso. apply N. now apply magnitude_zero.
Qed.

Lemma axis_nonzero (q : vnl_quaternion) :
  magnitude (imaginary q) <> 0 ->
  axis q = (vdiv (imaginary q) (magnitude (imaginary q)), []).
Proof.
  intros H. unfold axis.
  destruct (Req_dec_T (magnitude (imaginary q)) 0) as [E|_];
    [contradiction | reflexivity].
Qed.






(** ** Construction from a matrix *)

Lemma of_matrix_derive (rot : vnl_matrix_fixed33) :
  of_matrix rot = derive rot (selected_term rot).
Proof.
  unfold of_matrix, selected_term, derive, term_value.
  decide_R; reflexivity.
Qed.

Lemma selected_term_largest (rot : vnl_matrix_fixed33) (t : diagonal_term) :
  term_value rot t <= term_value rot (selected_term rot).
Proof.
  unfold selected_term. destruct t; cbv [term_value]; decide_R.
Qed.

Lemma selected_term_first (rot : vnl_matrix_fixed33) (t : diagonal_term) :
  term_value rot t = term_value rot (selected_term rot) ->
  (term_rank (selected_term rot) <= term_rank t)%nat.
Proof.
  unfold selected_term. destruct t; cbv [term_value term_rank];
    decide_R; intros; try lra; repeat constructor.
Qed.

Lemma selected_term_ge_1 (rot : vnl_matrix_fixed33) :
  1 <= term_value rot (selected_term rot).
Proof.
  pose proof (selected_term_largest rot Term_rr).
  pose proof (selected_term_largest rot Term_xx).
  pose proof (selected_term_largest rot Term_yy).
  pose proof (selected_term_largest rot Term_zz).
  cbv [term_value] in *. destruct (selected_term rot); lra.
Qed.

(** C4 (amended): [of_matrix] takes the largest of [rr], [xx], [yy], [zz],
    the first in that order among equals, and derives the four components
    from it: the component of the selected term is [sqrt (term * 4) / 4], the
    others are the matched off-diagonal differences and sums divided by
    [sqrt (term * 4)]. *)
Theorem of_matrix_branches (rot : vnl_matrix_fixed33) :
  0 < term_value rot (selected_term rot) ->
  (forall t, term_value rot t <= term_value rot (selected_term rot))
  /\ (forall t, term_value rot t = term_value rot (selected_term rot) ->
                (term_rank (selected_term rot) <= term_rank t)%nat)
  /\ of_matrix rot = derive rot (selected_term rot).
Proof.
  intros _. split; [|split].
  - apply selected_term_largest.
  - apply selected_term_first.
  - apply of_matrix_derive.
Qed.

(** The transposed rotation matrix of the unit quaternion (3/5, 0, 0, 4/5). *)
Lemma selected_term_sample :
  selected_term (mkM33 1 0 0 0 (7/25) (24/25) 0 (-24/25) (7/25)) = Term_rr.
Proof.
  unfold selected_term. cbv [term_value m00 m11 m22]. decide_R.
Qed.

Lemma of_matrix_branches_witness :
  let rot := mkM33 1 0 0 0 (7/25) (24/25) 0 (-24/25) (7/25) in
  0 < term_value rot (selected_term rot)
  /\ of_matrix rot = derive rot (selected_term rot).
Proof.
  intros rot.
  assert (H : 0 < term_value rot (selected_term rot)).
  { unfold rot. rewrite selected_term_sample.
    cbv [term_value m00 m11 m22]. lra. }
  split; [exact H | apply (of_matrix_branches rot H)].
Defined.

(** C4 as stated fails: with [rr] selected and positive, the [x] component
    is not the off-diagonal difference divided by [4 * sqrt rr]. *)
Lemma of_matrix_not_four_sqrt :
  let rot := mkM33 1 0 0 0 (7/25) (24/25) 0 (-24/25) (7/25) in
  selected_term rot = Term_rr
  /\ 0 < term_value rot Term_rr
  /\ x (of_matrix rot)
     <> (m12 rot - m21 rot) / (4 * sqrt (term_value rot Term_rr)).
Proof.
  intros rot. split; [apply selected_term_sample|]. split.
  - cbv [rot term_value m00 m11 m22]. lra.
  - unfold rot. rewrite of_matrix_derive, selected_term_sample.
    cbv [derive x term_value m00 m11 m22 m12 m21].
    rewrite (sqrt_of_square ((1 + 1 + 7 / 25 + 7 / 25) * 4) (16 / 5))
      by lra.
    rewrite (sqrt_of_square (1 + 1 + 7 / 25 + 7 / 25) (8 / 5)) by lra.
    lra.
Qed.

(** ** Matrix and quaternion, there and back *)

Lemma sqrt_16_square (c : R) : sqrt (4 * (c * c) * 4) = 4 * Rabs c.
Proof.
  replace (4 * (c * c) * 4) with (Rsqr (4 * c)) by (unfold Rsqr; ring).
  rewrite sqrt_Rsqr_abs, Rabs_mult, (Rabs_pos_eq 4) by lra. reflexivity.
Qed.

Lemma of_matrix_encodes (m : vnl_matrix_fixed33) (q : vnl_quaternion) :
  encodes m q -> of_matrix m = q \/ of_matrix m = qopp q.
Proof.
  destruct q as [qx qy qz qr]. unfold encodes, qopp. cbv [x y z r].
  intros (Hr & Hx & Hy & Hz & Hrx & Hry & Hrz & Hxy & Hzx & Hyz).
  rewrite of_matrix_derive.
  pose proof (selected_term_ge_1 m) as H1.
  destruct (selected_term m); unfold derive.
  - rewrite Hr in *. rewrite sqrt_16_square, Hrx, Hry, Hrz.
    by_sign qr Hr.
  - rewrite Hx in *. rewrite sqrt_16_square, Hrx, Hxy, Hzx.
    by_sign qx Hx.
  - rewrite Hy in *. rewrite sqrt_16_square, Hry, Hxy, Hyz.
    by_sign qy Hy.
  - rewrite Hz in *. rewrite sqrt_16_square, Hrz, Hzx, Hyz.
    by_sign qz Hz.
Qed.

Lemma rotation_matrix_transpose_encodes (q : vnl_quaternion) :
  squared_norm q = 1 -> encodes (rotation_matrix_transpose q) q.
Proof.
  destruct q as [qx qy qz qr]. unfold encodes, term_value. unfold_vnl.
  intros H. repeat split; nsatz.
Qed.

Lemma transpose_encodes_conjugate (q : vnl_quaternion) :
  squared_norm q = 1 ->
  encodes (transpose (rotation_matrix_transpose q)) (conjugate q).
Proof.
  destruct q as [qx qy qz qr]. unfold encodes, term_value. unfold_vnl.
  intros H. repeat split; nsatz.
Qed.

(** C1 (amended): for a unit quaternion [q], the quaternion constructed
    from [rotation_matrix_transpose q] itself is [q] or [-q]; the one
    constructed from the transpose of that matrix is the conjugate of [q] or
    its opposite. *)
Theorem of_matrix_rotation_matrix_transpose (q : vnl_quaternion) :
  squared_norm q = 1 ->
  (of_matrix (rotation_matrix_transpose q) = q
   \/ of_matrix (rotation_matrix_transpose q) = qopp q)
  /\ (of_matrix (transpose (rotation_matrix_transpose q)) = conjugate q
      \/ of_matrix (transpose (rotation_matrix_transpose q))
         = qopp (conjugate q)).
Proof.
  intros H. split; apply of_matrix_encodes.
  - now apply rotation_matrix_transpose_encodes.
  - now apply transpose_encodes_conjugate.
Qed.

Lemma of_matrix_rotation_matrix_transpose_witness :
  of_matrix (rotation_matrix_transpose (mkQ (3/5) 0 0 (4/5)))
  = mkQ (3/5) 0 0 (4/5)
  \/ of_matrix (rotation_matrix_transpose (mkQ (3/5) 0 0 (4/5)))
     = qopp (mkQ (3/5) 0 0 (4/5)).
Proof.
  apply (proj1 (of_matrix_rotation_matrix_transpose (mkQ (3/5) 0 0 (4/5))
                  ltac:(unfold_vnl; lra))).
Defined.

(** C1 as stated fails: through the transposed matrix the unit quaternion
    (3/5, 0, 0, 4/5) comes back as neither itself nor its opposite. *)
Lemma of_matrix_transposed_not_roundtrip :
  let q := mkQ (3/5) 0 0 (4/5) in
  squared_norm q = 1
  /\ ~ (of_matrix (transpose (rotation_matrix_transpose q)) = q
        \/ of_matrix (transpose (rotation_matrix_transpose q)) = qopp q).
Proof.
  intros q.
  assert (U : squared_norm q = 1) by (unfold q; unfold_vnl; lra).
  split; [exact U|].
  destruct (of_matrix_encodes _ _ (transpose_encodes_conjugate q U))
    as [E|E]; rewrite E; unfold q, qopp, conjugate; cbv [x y z r];
    intros [F|F]; injection F; intros; lra.
Qed.

(** ** The principal argument *)

Lemma atan2_right (s c : R) : 0 < c -> atan2 s c = atan (s / c).
Proof. intros H. unfold atan2. decide_R. Qed.

Lemma atan2_upper_left (s c : R) :
  c < 0 -> 0 <= s -> atan2 s c = atan (s / c) + PI.
Proof. intros Hc Hs. unfold atan2. decide_R. Qed.

Lemma atan2_lower_left (s c : R) :
  c < 0 -> s < 0 -> atan2 s c = atan (s / c) - PI.
Proof. intros Hc Hs. unfold atan2. decide_R. Qed.

Lemma atan2_up (s : R) : 0 < s -> atan2 s 0 = PI / 2.
Proof. intros Hs. unfold atan2. decide_R. Qed.

Lemma atan2_down (s : R) : s < 0 -> atan2 s 0 = - (PI / 2).
Proof. intros Hs. unfold atan2. decide_R. Qed.

Lemma polar_quotient (rho s c : R) :
  0 < rho -> c <> 0 -> rho * s / (rho * c) = s / c.
Proof. intros Hr Hc. field. lra. Qed.

(** [atan2] recovers the argument of a point given in polar coordinates. *)
Lemma atan2_polar (rho theta : R) :
  0 < rho -> - PI < theta <= PI ->
  atan2 (rho * sin theta) (rho * cos theta) = theta.
Proof.
  intros Hrho [Hlo Hhi]. pose proof PI_RGT_0 as Hpi.
  destruct (Rtotal_order theta (- (PI / 2))) as [L|[E|G]].
  - (* lower left quadrant *)
    assert (Hc : cos theta < 0).
    { rewrite <- cos_neg. apply cos_lt_0; lra. }
    assert (Hs : sin theta < 0).
    { rewrite <- (Ropp_involutive theta), sin_neg.
      pose proof (sin_gt_0 (- theta)). lra. }
    rewrite atan2_lower_left by nra.
    rewrite polar_quotient by lra.
    replace (sin theta / cos theta) with (tan (theta + PI)).
    + rewrite atan_tan by lra. ring.
    + unfold tan. rewrite neg_sin, neg_cos. field. lra.
  - subst theta. rewrite cos_neg, sin_neg, cos_PI2, sin_PI2.
    replace (rho * 0) with 0 by ring. apply atan2_down. lra.
  - destruct (Rtotal_order theta (PI / 2)) as [L|[E|G2]].
    + assert (Hc : 0 < cos theta) by (apply cos_gt_0; lra).
      rewrite atan2_right by nra.
      rewrite polar_quotient by lra.
      apply atan_tan. lra.
    + subst theta. rewrite cos_PI2, sin_PI2.
      replace (rho * 0) with 0 by ring. apply atan2_up. lra.
    + assert (Hc : cos theta < 0) by (apply cos_lt_0; lra).
      assert (Hs : 0 <= sin theta) by (apply sin_ge_0; lra).
      rewrite atan2_upper_left by nra.
      rewrite polar_quotient by lra.
      replace (sin theta / cos theta) with (tan (theta - PI)).
      * rewrite atan_tan by lra. ring.
      * unfold tan.
        replace (sin theta) with (sin (theta - PI + PI)) by (f_equal; ring).
        replace (cos theta) with (cos (theta - PI + PI)) by (f_equal; ring).
        rewrite neg_sin, neg_cos. field.
        intros Z.
        assert (cos theta = 0); [|lra].
        replace theta with (theta - PI + PI) by ring.
        rewrite neg_cos, Z. ring.
Qed.

(** ** Axis and angle, there and back *)

Lemma unit_magnitude (v : vnl_vector_fixed3) :
  magnitude v = 1 -> v0 v * v0 v + v1 v * v1 v + v2 v * v2 v = 1.
Proof.
  unfold magnitude. intros H.
  rewrite <- (sqrt_sqrt (v0 v * v0 v + v1 v * v1 v + v2 v * v2 v)) by nra.
  rewrite H. ring.
Qed.

Lemma magnitude_of_axis_angle (ax : vnl_vector_fixed3) (a : R) :
  magnitude ax = 1 -> 0 <= a <= PI ->
  magnitude (imaginary (of_axis_angle ax a)) = sin (a * (5 / 10)).
Proof.
  intros U Ha. apply unit_magnitude in U.
  unfold magnitude, imaginary, of_axis_angle. cbv [x y z v0 v1 v2] in *.
  destruct ax as [a0 a1 a2]. cbv [v0 v1 v2] in *.
  apply sqrt_of_square.
  - apply sin_ge_0; lra.
  - nsatz.
Qed.

Lemma angle_of_axis_angle (ax : vnl_vector_fixed3) (a : R) :
  magnitude ax = 1 -> 0 <= a <= PI -> angle (of_axis_angle ax a) = a.
Proof.
  intros U Ha. pose proof PI_RGT_0 as P.
  unfold angle. rewrite magnitude_of_axis_angle by assumption.
  unfold real, of_axis_angle. cbv [r].
  rewrite <- (Rmult_1_l (sin _)), <- (Rmult_1_l (cos _)).
  rewrite atan2_polar by lra. lra.
Qed.

Lemma axis_of_axis_angle (ax : vnl_vector_fixed3) (a : R) :
  magnitude ax = 1 -> 0 < a <= PI -> axis (of_axis_angle ax a) = (ax, []).
Proof.
  intros U Ha.
  assert (S : 0 < sin (a * (5 / 10))) by (apply sin_gt_0; lra).
  rewrite axis_nonzero; rewrite magnitude_of_axis_angle by (assumption || lra);
    [|lra].
  destruct ax as [a0 a1 a2].
  unfold vdiv, imaginary, of_axis_angle. cbv [x y z v0 v1 v2].
  do 2 f_equal; field; lra.
Qed.

Lemma axis_of_axis_angle_zero (ax : vnl_vector_fixed3) :
  axis (of_axis_angle ax 0) = (mkV3 0 0 1, [axis_diagnostic]).
Proof.
  apply axis_zero. unfold imaginary, of_axis_angle. cbv [x y z].
  replace (0 * (5 / 10)) with 0 by lra.
  rewrite sin_0, !Rmult_0_l. reflexivity.
Qed.

(** C7 (amended): for a unit axis and an angle in (0, PI], [angle()] and
    [axis()] of the quaternion constructed from them are the angle and the
    axis.  At the angle 0, [angle()] is 0 as well, while [axis()] is the
    fallback (0,0,1) with its diagnostic, whatever the axis was. *)
Theorem axis_angle_roundtrip (ax : vnl_vector_fixed3) (a : R) :
  magnitude ax = 1 -> 0 <= a <= PI ->
  angle (of_axis_angle ax a) = a
  /\ (0 < a -> axis (of_axis_angle ax a) = (ax, []))
  /\ (a = 0 ->
      axis (of_axis_angle ax a) = (mkV3 0 0 1, [axis_diagnostic])).
Proof.
  intros U Ha. split; [|split].
  - now apply angle_of_axis_angle.
  - intros P. apply axis_of_axis_angle; [assumption | lra].
  - intros ->. apply axis_of_axis_angle_zero.
Qed.

Lemma magnitude_sample : magnitude (mkV3 (3/5) 0 (4/5)) = 1.
Proof.
  unfold magnitude. cbv [v0 v1 v2]. apply sqrt_of_square; lra.
Qed.

Lemma axis_angle_roundtrip_witness :
  angle (of_axis_angle (mkV3 (3/5) 0 (4/5)) PI) = PI
  /\ axis (of_axis_angle (mkV3 (3/5) 0 (4/5)) PI) = (mkV3 (3/5) 0 (4/5), []).
Proof.
  pose proof PI_RGT_0 as P.
  destruct (axis_angle_roundtrip (mkV3 (3/5) 0 (4/5)) PI magnitude_sample
              ltac:(lra)) as (A & B & _).
  split; [exact A | apply B; exact P].
Defined.

(** C7 as stated fails at the angle 0: the axis (1,0,0) is read back as
    (0,0,1). *)
Lemma axis_angle_zero_not_roundtrip :
  magnitude (mkV3 1 0 0) = 1
  /\ 0 <= 0 <= PI
  /\ fst (axis (of_axis_angle (mkV3 1 0 0) 0)) <> mkV3 1 0 0.
Proof.
  split; [|split].
  - unfold magnitude. cbv [v0 v1 v2]. apply sqrt_of_square; lra.
  - pose proof PI_RGT_0. lra.
  - rewrite axis_of_axis_angle_zero. simpl. intros E. injection E as E _. lra.
Qed.

(** ** Euler angles *)

Lemma rotation_euler_angles_regular (epsilon : R) (q : vnl_quaternion) :
  let m := rotation_matrix_transpose q in
  let xy := sqrt (m00 m * m00 m + m01 m * m01 m) in
  xy > 8 * epsilon ->
  rotation_euler_angles epsilon q
  = mkV3 (atan2 (m12 m) (m22 m)) (atan2 (- m02 m) xy) (atan2 (m01 m) (m00 m)).
Proof.
  intros m xy H. unfold rotation_euler_angles.
  cbv [rotation_matrix_transpose_4 update set_identity
       a00 a01 a02 a11 a12 a21 a22].
  fold m. fold xy. decide_R.
Qed.

Lemma rotation_euler_angles_degenerate (epsilon : R) (q : vnl_quaternion) :
  let m := rotation_matrix_transpose q in
  let xy := sqrt (m00 m * m00 m + m01 m * m01 m) in
  xy <= 8 * epsilon ->
  rotation_euler_angles epsilon q
  = mkV3 (atan2 (- m21 m) (m11 m)) (atan2 (- m02 m) xy) 0.
Proof.
  intros m xy H. unfold rotation_euler_angles.
  cbv [rotation_matrix_transpose_4 update set_identity
       a00 a01 a02 a11 a12 a21 a22].
  fold m. fold xy. decide_R.
Qed.

(** C5: [rotation_euler_angles()] computes [xy = sqrt (m00^2 + m01^2)] from
    the transposed rotation matrix; above 8 times the machine epsilon it
    returns (atan2 m12 m22, atan2 (-m02) xy, atan2 m01 m00), otherwise
    (atan2 (-m21) m11, atan2 (-m02) xy, 0). *)
Theorem rotation_euler_angles_branches (epsilon : R) (q : vnl_quaternion) :
  let m := rotation_matrix_transpose q in
  let xy := sqrt (m00 m * m00 m + m01 m * m01 m) in
  (xy > 8 * epsilon ->
   rotation_euler_angles epsilon q
   = mkV3 (atan2 (m12 m) (m22 m)) (atan2 (- m02 m) xy)
          (atan2 (m01 m) (m00 m)))
  /\ (~ xy > 8 * epsilon ->
      rotation_euler_angles epsilon q
      = mkV3 (atan2 (- m21 m) (m11 m)) (atan2 (- m02 m) xy) 0).
Proof.
  intros m xy. split; intros H.
  - now apply rotation_euler_angles_regular.
  - apply rotation_euler_angles_degenerate. fold m. fold xy. lra.
Qed.

(** The machine epsilon of [double], 2^-52. *)
Lemma rotation_euler_angles_branches_witness :
  rotation_euler_angles (/ 4503599627370496) (mkQ 0 0 0 1)
  = mkV3 (atan2 0 1) (atan2 (- 0) 1) (atan2 0 1)
  /\ rotation_euler_angles (/ 4503599627370496) (mkQ 0 1 0 1)
     = mkV3 (atan2 (- 0) 2) (atan2 (- -2) 0) 0.
Proof.
  split.
  - rewrite (proj1 (rotation_euler_angles_branches _ _)); unfold_vnl;
      replace (sqrt _) with 1 by (symmetry; apply sqrt_of_square; lra).
    + f_equal; f_equal; lra.
    + lra.
  - rewrite (proj2 (rotation_euler_angles_branches _ _)); unfold_vnl;
      replace (sqrt _) with 0 by (symmetry; apply sqrt_of_square; lra).
    + f_equal; f_equal; lra.
    + lra.
Defined.

Lemma sin_cos_square (t : R) : sin t * sin t + cos t * cos t = 1.
Proof.
  pose proof (sin2_cos2 t) as H. unfold Rsqr in H. exact H.
Qed.

(** The entries of the transposed rotation matrix of [Rz * Ry * Rx] that
    [rotation_euler_angles] reads, in terms of the whole angles. *)
Lemma euler_matrix (a b c : R) :
  let m := rotation_matrix_transpose
             (qmul (qmul (mkQ 0 0 (sin c) (cos c)) (mkQ 0 (sin b) 0 (cos b)))
                   (mkQ (sin a) 0 0 (cos a))) in
  m00 m = cos (2 * b) * cos (2 * c)
  /\ m01 m = cos (2 * b) * sin (2 * c)
  /\ m02 m = - sin (2 * b)
  /\ m12 m = cos (2 * b) * sin (2 * a)
  /\ m22 m = cos (2 * b) * cos (2 * a).
Proof.
  intros m. unfold m. clear m. unfold_vnl.
  rewrite !cos_2a, !sin_2a.
  pose proof (sin_cos_square a) as Ha.
  pose proof (sin_cos_square b) as Hb.
  pose proof (sin_cos_square c) as Hc.
  generalize dependent (sin a). generalize dependent (cos a).
  generalize dependent (sin b). generalize dependent (cos b).
  generalize dependent (sin c). generalize dependent (cos c).
  intros cc sc Hc cb sb Hb ca sa Ha.
  repeat split; nsatz.
Qed.

(** C6: for Euler angles with [theta_X], [theta_Z] in (-PI, PI] and
    [theta_Y] in (-PI/2, PI/2), far enough from the ends that its cosine is
    above 8 times the machine epsilon, [rotation_euler_angles()] of the
    quaternion [Rz * Ry * Rx] gives the three angles back. *)
Theorem euler_roundtrip (epsilon theta_X theta_Y theta_Z : R) :
  - PI < theta_X <= PI ->
  - (PI / 2) < theta_Y < PI / 2 ->
  8 * epsilon < cos theta_Y ->
  - PI < theta_Z <= PI ->
  rotation_euler_angles epsilon (of_euler theta_X theta_Y theta_Z)
  = mkV3 theta_X theta_Y theta_Z.
Proof.
  intros HX HY Heps HZ.
  assert (Cy : 0 < cos theta_Y) by (apply cos_gt_0; lra).
  pose proof (euler_matrix (theta_X * (5 / 10)) (theta_Y * (5 / 10))
                (theta_Z * (5 / 10))) as E.
  fold (of_euler theta_X theta_Y theta_Z) in E.
  replace (2 * (theta_X * (5 / 10))) with theta_X in E by lra.
  replace (2 * (theta_Y * (5 / 10))) with theta_Y in E by lra.
  replace (2 * (theta_Z * (5 / 10))) with theta_Z in E by lra.
  destruct E as (E00 & E01 & E02 & E12 & E22).
  assert (XY : sqrt (cos theta_Y * cos theta_Z * (cos theta_Y * cos theta_Z)
                     + cos theta_Y * sin theta_Z * (cos theta_Y * sin theta_Z))
               = cos theta_Y).
  { apply sqrt_of_square; [lra|].
    pose proof (sin_cos_square theta_Z). nsatz. }
  rewrite rotation_euler_angles_regular;
    rewrite E00, E01, ?E02, ?E12, ?E22, XY; [|lra].
  rewrite Ropp_involutive.
  rewrite !atan2_polar by assumption.
  rewrite <- (Rmult_1_l (sin theta_Y)), <- (Rmult_1_l (cos theta_Y)) at 1.
  rewrite atan2_polar by lra. reflexivity.
Qed.

Lemma euler_roundtrip_witness :
  rotation_euler_angles (/ 4503599627370496) (of_euler 1 0 (-1))
  = mkV3 1 0 (-1).
Proof.
  pose proof PI2_1 as P.
  apply euler_roundtrip; try rewrite cos_0; lra.
Defined.

(** * Further properties of the quaternion operations *)

(** ** The algebra of [operator*] *)

Lemma sample_unit : squared_norm (mkQ (3/5) 0 0 (4/5)) = 1.
Proof. unfold_vnl. lra. Qed.

Lemma sample_unit' : squared_norm (mkQ 0 (5/13) 0 (12/13)) = 1.
Proof. unfold_vnl. lra. Qed.

(** X1: the product is associative, and the quaternion (0,0,0,1) is its
    unit on both sides. *)
Theorem qmul_monoid (p q s : vnl_quaternion) :
  qmul (qmul p q) s = qmul p (qmul q s)
  /\ qmul null_quaternion q = q
  /\ qmul q null_quaternion = q.
Proof.
  split; [apply qmul_assoc|].
  destruct q as [qx qy qz qr]. unfold_mat. split; f_equal; ring.
Qed.

(** X2: the conjugate reverses products and is its own inverse. *)
Theorem conjugate_reverses (p q : vnl_quaternion) :
  conjugate (qmul p q) = qmul (conjugate q) (conjugate p)
  /\ conjugate (conjugate q) = q.
Proof.
  split; [apply conjugate_qmul|].
  destruct q as [qx qy qz qr]. unfold_vnl. f_equal; ring.
Qed.

Lemma qmul_inverse_r (q : vnl_quaternion) :
  squared_norm q <> 0 -> qmul q (inverse q) = null_quaternion.
Proof.
  destruct q as [qx qy qz qr]. unfold_mat. intros H. f_equal; field; exact H.
Qed.

Lemma qmul_inverse_l (q : vnl_quaternion) :
  squared_norm q <> 0 -> qmul (inverse q) q = null_quaternion.
Proof.
  destruct q as [qx qy qz qr]. unfold_mat. intros H. f_equal; field; exact H.
Qed.

(** X3: a quaternion that is not zero times its [inverse()], in either
    order, is the null quaternion (0,0,0,1). *)
Theorem inverse_cancels (q : vnl_quaternion) :
  squared_norm q <> 0 ->
  qmul q (inverse q) = null_quaternion
  /\ qmul (inverse q) q = null_quaternion.
Proof.
  intros H. split; [now apply qmul_inverse_r | now apply qmul_inverse_l].
Qed.

Lemma inverse_cancels_witness :
  qmul (mkQ 1 2 3 4) (inverse (mkQ 1 2 3 4)) = null_quaternion
  /\ qmul (inverse (mkQ 1 2 3 4)) (mkQ 1 2 3 4) = null_quaternion.
Proof.
  apply inverse_cancels. unfold_vnl. lra.
Defined.

(** X4: [inverse()] reverses the product of two quaternions that are not
    zero. *)
Theorem inverse_reverses (p q : vnl_quaternion) :
  squared_norm p <> 0 -> squared_norm q <> 0 ->
  inverse (qmul p q) = qmul (inverse q) (inverse p).
Proof.
  intros Hp Hq.
  assert (Hpq : squared_norm (qmul p q) <> 0).
  { rewrite squared_norm_mult. now apply Rmult_integral_contrapositive. }
  revert Hp Hq Hpq.
  destruct p as [px py pz pr], q as [qx qy qz qr]. unfold_vnl.
  intros Hp Hq Hpq. f_equal; field; repeat split; assumption.
Qed.

Lemma inverse_reverses_witness :
  inverse (qmul (mkQ 1 0 0 1) (mkQ 0 2 0 0))
  = qmul (inverse (mkQ 0 2 0 0)) (inverse (mkQ 1 0 0 1)).
Proof.
  apply inverse_reverses; unfold_vnl; lra.
Defined.

(** X5: two quaternions commute exactly when the cross product of their
    imaginary parts is zero; the product is not commutative in general. *)
Theorem qmul_commutes (p q : vnl_quaternion) :
  qmul p q = qmul q p
  <-> vnl_cross_3d (imaginary p) (imaginary q) = mkV3 0 0 0.
Proof.
  destruct p as [px py pz pr], q as [qx qy qz qr]. unfold_vnl. split.
  - intros E. injection E as E0 E1 E2 _. f_equal; lra.
  - intros E. injection E as E0 E1 E2. f_equal; lra.
Qed.

Lemma qmul_commutes_witness :
  qmul (mkQ 1 0 0 3) (mkQ 2 0 0 5) = qmul (mkQ 2 0 0 5) (mkQ 1 0 0 3).
Proof.
  apply (proj2 (qmul_commutes (mkQ 1 0 0 3) (mkQ 2 0 0 5))).
  unfold_vnl. f_equal; lra.
Defined.

(** ** Rotation of vectors, continued *)

Lemma rotate_inverse_sandwich (q : vnl_quaternion) (v : vnl_vector_fixed3) :
  squared_norm q = 1 ->
  qmul (qmul q (of_vector v)) (inverse q) = of_vector (rotate q v).
Proof.
  intros H. unfold inverse. rewrite H.
  rewrite <- (rotate_sandwich q v H). f_equal.
  destruct q as [qx qy qz qr]. unfold_vnl. f_equal; field.
Qed.

(** X6: for a unit quaternion, [rotate] is the sandwich product
    [q * v * q^-1] of the vector taken as an imaginary quaternion: the
    result has the rotated vector as imaginary part and real part 0. *)
Theorem rotate_is_sandwich (q : vnl_quaternion) (v : vnl_vector_fixed3) :
  squared_norm q = 1 ->
  imaginary (qmul (qmul q (of_vector v)) (inverse q)) = rotate q v
  /\ real (qmul (qmul q (of_vector v)) (inverse q)) = 0.
Proof.
  intros H. rewrite rotate_inverse_sandwich by exact H.
  destruct (rotate q v). split; reflexivity.
Qed.

Lemma rotate_is_sandwich_witness :
  imaginary (qmul (qmul (mkQ (3/5) 0 0 (4/5)) (of_vector (mkV3 1 2 3)))
                  (inverse (mkQ (3/5) 0 0 (4/5))))
  = rotate (mkQ (3/5) 0 0 (4/5)) (mkV3 1 2 3).
Proof.
  apply (proj1 (rotate_is_sandwich _ (mkV3 1 2 3) sample_unit)).
Defined.

Lemma rotate_dot (q : vnl_quaternion) (u v : vnl_vector_fixed3) :
  squared_norm q = 1 ->
  dot_product (rotate q u) (rotate q v) = dot_product u v.
Proof.
  destruct q as [qx qy qz qr], u as [a b c], v as [d e f]. unfold_vnl.
  intros H. nsatz.
Qed.

(** X7: rotation by a unit quaternion keeps dot products, hence lengths. *)
Theorem rotate_isometry (q : vnl_quaternion) (u v : vnl_vector_fixed3) :
  squared_norm q = 1 ->
  dot_product (rotate q u) (rotate q v) = dot_product u v
  /\ magnitude (rotate q v) = magnitude v.
Proof.
  intros H. split; [now apply rotate_dot|].
  pose proof (rotate_dot q v v H) as E.
  unfold magnitude. unfold dot_product in E. now rewrite E.
Qed.

Lemma rotate_isometry_witness :
  magnitude (rotate (mkQ (3/5) 0 0 (4/5)) (mkV3 1 2 3))
  = magnitude (mkV3 1 2 3).
Proof.
  apply (proj2 (rotate_isometry _ (mkV3 1 2 3) (mkV3 1 2 3) sample_unit)).
Defined.

(** X8: rotation by a unit quaternion keeps cross products: it preserves
    orientation. *)
Theorem rotate_cross (q : vnl_quaternion) (u v : vnl_vector_fixed3) :
  squared_norm q = 1 ->
  rotate q (vnl_cross_3d u v) = vnl_cross_3d (rotate q u) (rotate q v).
Proof.
  destruct q as [qx qy qz qr], u as [a b c], v as [d e f]. unfold_vnl.
  intros H. f_equal; nsatz.
Qed.

Lemma rotate_cross_witness :
  rotate (mkQ (3/5) 0 0 (4/5)) (vnl_cross_3d (mkV3 1 2 3) (mkV3 0 1 0))
  = vnl_cross_3d (rotate (mkQ (3/5) 0 0 (4/5)) (mkV3 1 2 3))
                 (rotate (mkQ (3/5) 0 0 (4/5)) (mkV3 0 1 0)).
Proof.
  apply rotate_cross. exact sample_unit.
Defined.

(** X9: [rotate] leaves the imaginary part of its quaternion, the rotation
    axis, where it is, for every quaternion; and it is linear in the
    vector. *)
Theorem rotate_axis_linear (q : vnl_quaternion) (u v : vnl_vector_fixed3)
    (a b : R) :
  rotate q (imaginary q) = imaginary q
  /\ rotate q (vadd (vscale u a) (vscale v b))
     = vadd (vscale (rotate q u) a) (vscale (rotate q v) b).
Proof.
  destruct q as [qx qy qz qr], u as [u0 u1 u2], v as [w0 w1 w2]. unfold_vnl.
  split; f_equal; ring.
Qed.

(** X10: a quaternion and its opposite rotate alike and have the same
    matrix. *)
Theorem qopp_same_rotation (q : vnl_quaternion) (v : vnl_vector_fixed3) :
  rotate (qopp q) v = rotate q v
  /\ rotation_matrix_transpose (qopp q) = rotation_matrix_transpose q.
Proof.
  destruct q as [qx qy qz qr], v as [a b c]. unfold_mat.
  split; f_equal; ring.
Qed.

Lemma conjugate_unit (q : vnl_quaternion) :
  squared_norm q = 1 -> squared_norm (conjugate q) = 1.
Proof.
  destruct q as [qx qy qz qr]. unfold_vnl. intros H. rewrite <- H. ring.
Qed.

(** X11: for a unit quaternion, rotating by the conjugate undoes the
    rotation, on either side. *)
Theorem rotate_conjugate (q : vnl_quaternion) (v : vnl_vector_fixed3) :
  squared_norm q = 1 ->
  rotate (conjugate q) (rotate q v) = v
  /\ rotate q (rotate (conjugate q) v) = v.
Proof.
  destruct q as [qx qy qz qr], v as [a b c]. unfold_vnl.
  intros H. split; f_equal; nsatz.
Qed.

Lemma rotate_conjugate_witness :
  rotate (conjugate (mkQ (3/5) 0 0 (4/5)))
         (rotate (mkQ (3/5) 0 0 (4/5)) (mkV3 1 2 3)) = mkV3 1 2 3.
Proof.
  apply (proj1 (rotate_conjugate _ (mkV3 1 2 3) sample_unit)).
Defined.

(** ** The rotation matrix *)

(** X12: the matrix of a unit quaternion is orthonormal: multiplied by its
    transpose, on either side, it gives the identity. *)
Theorem rotation_matrix_orthonormal (q : vnl_quaternion) :
  squared_norm q = 1 ->
  mat_mul (rotation_matrix_transpose q)
          (transpose (rotation_matrix_transpose q)) = identity33
  /\ mat_mul (transpose (rotation_matrix_transpose q))
             (rotation_matrix_transpose q) = identity33.
Proof.
  destruct q as [qx qy qz qr]. unfold_mat. intros H.
  split; f_equal; nsatz.
Qed.

Lemma rotation_matrix_orthonormal_witness :
  mat_mul (rotation_matrix_transpose (mkQ (3/5) 0 0 (4/5)))
          (transpose (rotation_matrix_transpose (mkQ (3/5) 0 0 (4/5))))
  = identity33.
Proof.
  apply (proj1 (rotation_matrix_orthonormal _ sample_unit)).
Defined.

(** X13: the matrix of a product is the product of the matrices in the
    reverse order, as the comment of [operator*] says: [q2 * q1] has the
    matrix [m1 * m2].  No unit norm is needed. *)
Theorem rotation_matrix_qmul (q1 q2 : vnl_quaternion) :
  rotation_matrix_transpose (qmul q2 q1)
  = mat_mul (rotation_matrix_transpose q1) (rotation_matrix_transpose q2).
Proof.
  destruct q1 as [x1 y1 z1 r1], q2 as [x2 y2 z2 r2]. unfold_mat.
  f_equal; ring.
Qed.

(** X14: the matrix of the conjugate is the transposed matrix. *)
Theorem rotation_matrix_conjugate (q : vnl_quaternion) :
  rotation_matrix_transpose (conjugate q)
  = transpose (rotation_matrix_transpose q).
Proof.
  destruct q as [qx qy qz qr]. unfold_mat. f_equal; ring.
Qed.

Lemma rotation_matrix_qopp (q : vnl_quaternion) :
  rotation_matrix_transpose (qopp q) = rotation_matrix_transpose q.
Proof.
  destruct q as [qx qy qz qr]. unfold_mat. f_equal; ring.
Qed.

Lemma qopp_unit (q : vnl_quaternion) :
  squared_norm q = 1 -> squared_norm (qopp q) = 1.
Proof.
  destruct q as [qx qy qz qr]. unfold_mat. intros H. rewrite <- H. ring.
Qed.

(** X15: for a unit quaternion [q], the quaternion read back from its
    matrix is again a unit quaternion and has the same matrix: matrix to
    quaternion to matrix loses nothing. *)
Theorem matrix_roundtrip (q : vnl_quaternion) :
  squared_norm q = 1 ->
  squared_norm (of_matrix (rotation_matrix_transpose q)) = 1
  /\ rotation_matrix_transpose (of_matrix (rotation_matrix_transpose q))
     = rotation_matrix_transpose q.
Proof.
  intros H.
  destruct (of_matrix_encodes _ _ (rotation_matrix_transpose_encodes q H))
    as [E|E]; rewrite E.
  - split; [exact H | reflexivity].
  - split; [now apply qopp_unit | apply rotation_matrix_qopp].
Qed.

Lemma matrix_roundtrip_witness :
  rotation_matrix_transpose
    (of_matrix (rotation_matrix_transpose (mkQ (3/5) 0 0 (4/5))))
  = rotation_matrix_transpose (mkQ (3/5) 0 0 (4/5)).
Proof.
  apply (proj2 (matrix_roundtrip _ sample_unit)).
Defined.

Lemma selected_term_transpose (m : vnl_matrix_fixed33) :
  selected_term (transpose m) = selected_term m.
Proof. reflexivity. Qed.

(** X16: for every matrix, the quaternion constructed from the transposed
    matrix is the conjugate of the one constructed from the matrix, or the
    opposite of that conjugate. *)
Theorem of_matrix_transpose (m : vnl_matrix_fixed33) :
  of_matrix (transpose m) = conjugate (of_matrix m)
  \/ of_matrix (transpose m) = qopp (conjugate (of_matrix m)).
Proof.
  rewrite !of_matrix_derive, selected_term_transpose.
  destruct m as [b00 b01 b02 b10 b11 b12 b20 b21 b22].
  destruct (selected_term _);
    [left | right | right | right];
    cbv [derive transpose conjugate qopp term_value x y z r
         m00 m01 m02 m10 m11 m12 m20 m21 m22];
    f_equal; unfold Rdiv; ring.
Qed.

(** ** Constructors *)

(** X17: from a unit axis, [vnl_quaternion(axis, angle)] is a unit
    quaternion, whatever the angle. *)
Theorem of_axis_angle_unit (ax : vnl_vector_fixed3) (a : R) :
  magnitude ax = 1 -> squared_norm (of_axis_angle ax a) = 1.
Proof.
  intros U. apply unit_magnitude in U.
  pose proof (sin_cos_square (a * (5 / 10))) as T.
  destruct ax as [a0 a1 a2]. unfold of_axis_angle. unfold_vnl.
  cbv [v0 v1 v2] in U.
  generalize dependent (sin (a * (5 / 10))).
  generalize dependent (cos (a * (5 / 10))).
  intros c s T. nsatz.
Qed.

Lemma of_axis_angle_unit_witness :
  squared_norm (of_axis_angle (mkV3 (3/5) 0 (4/5)) 2) = 1.
Proof.
  apply of_axis_angle_unit. exact magnitude_sample.
Defined.

Lemma of_euler_unit (theta_X theta_Y theta_Z : R) :
  squared_norm (of_euler theta_X theta_Y theta_Z) = 1.
Proof.
  unfold of_euler. rewrite !squared_norm_mult. unfold_vnl.
  pose proof (sin_cos_square (theta_X * (5 / 10))) as HX.
  pose proof (sin_cos_square (theta_Y * (5 / 10))) as HY.
  pose proof (sin_cos_square (theta_Z * (5 / 10))) as HZ.
  replace (0 * 0 + 0 * 0 + _ + _) with 1 by lra.
  replace (0 * 0 + _ + 0 * 0 + _) with 1 by lra.
  replace (_ + 0 * 0 + 0 * 0 + _) with 1 by lra.
  ring.
Qed.

(** X18: the Euler constructor is the product of the three axis-angle
    quaternions about the coordinate axes, Z * Y * X, and always a unit
    quaternion. *)
Theorem of_euler_axis_angles (theta_X theta_Y theta_Z : R) :
  of_euler theta_X theta_Y theta_Z
  = qmul (qmul (of_axis_angle (mkV3 0 0 1) theta_Z)
               (of_axis_angle (mkV3 0 1 0) theta_Y))
         (of_axis_angle (mkV3 1 0 0) theta_X)
  /\ squared_norm (of_euler theta_X theta_Y theta_Z) = 1.
Proof.
  split; [|apply of_euler_unit].
  unfold of_euler, of_axis_angle. cbv [v0 v1 v2].
  rewrite !Rmult_0_r, !Rmult_1_r. reflexivity.
Qed.

(** X19: Rodrigues' formula.  For a unit axis [n], rotating [v] by the
    axis-angle quaternion of [n] and [a] gives
    [v cos a + (n x v) sin a + n (n . v) (1 - cos a)]: a rotation by the
    angle [a] about [n], by the right-hand rule. *)
Theorem rotate_of_axis_angle (n v : vnl_vector_fixed3) (a : R) :
  magnitude n = 1 ->
  rotate (of_axis_angle n a) v
  = vadd (vadd (vscale v (cos a)) (vscale (vnl_cross_3d n v) (sin a)))
         (vscale n (dot_product n v * (1 - cos a))).
Proof.
  intros U. apply unit_magnitude in U.
  replace a with (2 * (a * (5 / 10))) at 2 3 4 by lra.
  rewrite cos_2a, sin_2a.
  pose proof (sin_cos_square (a * (5 / 10))) as T.
  destruct n as [n0 n1 n2], v as [a0 a1 a2]. unfold of_axis_angle.
  unfold_vnl. cbv [v0 v1 v2] in U.
  generalize dependent (sin (a * (5 / 10))).
  generalize dependent (cos (a * (5 / 10))).
  intros c s T. f_equal; nsatz.
Qed.

Lemma rotate_of_axis_angle_witness :
  rotate (of_axis_angle (mkV3 (3/5) 0 (4/5)) 2) (mkV3 1 2 3)
  = vadd (vadd (vscale (mkV3 1 2 3) (cos 2))
               (vscale (vnl_cross_3d (mkV3 (3/5) 0 (4/5)) (mkV3 1 2 3))
                       (sin 2)))
         (vscale (mkV3 (3/5) 0 (4/5))
                 (dot_product (mkV3 (3/5) 0 (4/5)) (mkV3 1 2 3)
                  * (1 - cos 2))).
Proof.
  apply rotate_of_axis_angle. exact magnitude_sample.
Defined.

(** ** Where [atan2] lies *)

Lemma atan_nonneg (t : R) : 0 <= t -> 0 <= atan t.
Proof.
  intros [H|H].
  - left. rewrite <- atan_0. now apply atan_increasing.
  - subst. rewrite atan_0. lra.
Qed.

Lemma atan_nonpos (t : R) : t <= 0 -> atan t <= 0.
Proof.
  intros [H|H].
  - left. rewrite <- atan_0. now apply atan_increasing.
  - subst. rewrite atan_0. lra.
Qed.

Lemma quotient_nonneg (s c : R) : 0 <= s -> 0 < c -> 0 <= s / c.
Proof.
  intros Hs Hc. apply Rmult_le_pos; [exact Hs|].
  left. now apply Rinv_0_lt_compat.
Qed.

Lemma quotient_nonpos (s c : R) : 0 <= s -> c < 0 -> s / c <= 0.
Proof.
  intros Hs Hc. replace (s / c) with (- (s / - c)) by (field; lra).
  pose proof (quotient_nonneg s (- c) Hs). lra.
Qed.

Lemma atan2_range (s c : R) : - PI < atan2 s c <= PI.
Proof.
  pose proof PI_RGT_0 as P. pose proof (atan_bound (s / c)) as B.
  unfold atan2. decide_R.
  - pose proof (atan_nonpos (s / c) (quotient_nonpos s c ltac:(lra) ltac:(lra))).
    lra.
  - assert (0 < atan (s / c)); [|lra].
    rewrite <- atan_0. apply atan_increasing.
    replace (s / c) with (- s * / - c) by (field; lra).
    apply Rmult_lt_0_compat; [lra | apply Rinv_0_lt_compat; lra].
Qed.

Lemma atan2_upper (s c : R) : 0 <= s -> 0 <= atan2 s c <= PI.
Proof.
  intros Hs. pose proof PI_RGT_0 as P.
  pose proof (atan_bound (s / c)) as B.
  unfold atan2. decide_R.
  - pose proof (atan_nonneg (s / c) (quotient_nonneg s c Hs ltac:(lra))). lra.
  - pose proof (atan_nonpos (s / c) (quotient_nonpos s c Hs ltac:(lra))). lra.
Qed.

Lemma atan2_right_half (s c : R) :
  0 <= c -> - (PI / 2) <= atan2 s c <= PI / 2.
Proof.
  intros Hc. pose proof PI_RGT_0 as P.
  pose proof (atan_bound (s / c)) as B.
  unfold atan2. decide_R.
Qed.

(** On the unit circle [atan2] is the angle of the point. *)
Lemma atan2_unit_circle (s c : R) :
  s * s + c * c = 1 -> sin (atan2 s c) = s /\ cos (atan2 s c) = c.
Proof.
  intros H.
  assert (Q : c <> 0 -> 1 + (s / c)² = (/ c)²).
  { intros N. unfold Rsqr. field_simplify_eq; [nra | exact N]. }
  destruct (Rtotal_order c 0) as [L|[E|G]].
  - assert (S : sqrt (1 + (s / c)²) = - / c).
    { rewrite Q by lra. apply sqrt_of_square.
      - pose proof (Rinv_lt_0_compat c L). lra.
      - unfold Rsqr. ring. }
    assert (A : sin (atan (s / c)) = - s /\ cos (atan (s / c)) = - c).
    { rewrite sin_atan, cos_atan, S. split; field; lra. }
    destruct A as [As Ac].
    destruct (Rle_dec 0 s).
    + rewrite atan2_upper_left by assumption.
      rewrite neg_sin, neg_cos, As, Ac. split; ring.
    + rewrite atan2_lower_left by lra.
      unfold Rminus. rewrite sin_plus, cos_plus, sin_neg, cos_neg.
      rewrite sin_PI, cos_PI, As, Ac. split; ring.
  - subst c. assert (s = 1 \/ s = -1) as [-> | ->].
    { assert (Z : (s - 1) * (s + 1) = 0) by nra.
      apply Rmult_integral in Z. destruct Z; [left | right]; lra. }
    + rewrite atan2_up by lra. rewrite sin_PI2, cos_PI2. split; reflexivity.
    + rewrite atan2_down by lra.
      rewrite sin_neg, cos_neg, sin_PI2, cos_PI2. split; reflexivity.
  - assert (S : sqrt (1 + (s / c)²) = / c).
    { rewrite Q by lra. apply sqrt_of_square.
      - pose proof (Rinv_0_lt_compat c G). lra.
      - unfold Rsqr. ring. }
    rewrite atan2_right by assumption.
    rewrite sin_atan, cos_atan, S. split; field; lra.
Qed.

(** ** Angle and axis *)

Lemma magnitude_nonneg (v : vnl_vector_fixed3) : 0 <= magnitude v.
Proof. apply sqrt_pos. Qed.

Lemma magnitude_square (v : vnl_vector_fixed3) :
  magnitude v * magnitude v = v0 v * v0 v + v1 v * v1 v + v2 v * v2 v.
Proof. unfold magnitude. apply sqrt_sqrt. nra. Qed.

(** X20: [angle()] lies in [0, 2 PI] for every quaternion, as its comment
    says; the half angle is never negative. *)
Theorem angle_range (q : vnl_quaternion) : 0 <= angle q <= 2 * PI.
Proof.
  unfold angle.
  pose proof (atan2_upper (magnitude (imaginary q)) (real q)
                (magnitude_nonneg _)).
  lra.
Qed.

Lemma axis_unit_nonzero (v : vnl_vector_fixed3) :
  magnitude v <> 0 -> magnitude (vdiv v (magnitude v)) = 1.
Proof.
  intros N. pose proof (magnitude_square v) as S.
  pose proof (magnitude_nonneg v) as P.
  unfold magnitude at 1. unfold vdiv. cbv [v0 v1 v2].
  apply sqrt_of_square; [lra|].
  destruct v as [a b c]. cbv [v0 v1 v2] in *.
  generalize dependent (magnitude (mkV3 a b c)). intros m N S P.
  field_simplify_eq; [lra | exact N].
Qed.

(** X21: in exact real arithmetic, the direction [axis()] returns has
    length 1, for every quaternion: the normalized imaginary part, or the
    fallback (0,0,1). *)
Theorem axis_unit (q : vnl_quaternion) : magnitude (fst (axis q)) = 1.
Proof.
  destruct (Req_dec_T (magnitude (imaginary q)) 0) as [E|N].
  - rewrite axis_zero by now apply magnitude_zero.
    unfold magnitude. cbv [fst v0 v1 v2]. apply sqrt_of_square; lra.
  - rewrite axis_nonzero by exact N. now apply axis_unit_nonzero.
Qed.

Lemma unit_circle_of_unit (q : vnl_quaternion) :
  squared_norm q = 1 ->
  magnitude (imaginary q) * magnitude (imaginary q) + real q * real q = 1.
Proof.
  intros H. rewrite magnitude_square.
  destruct q as [qx qy qz qr]. revert H. unfold_vnl. lra.
Qed.

(** X22: a unit quaternion is the axis-angle quaternion of its own
    [axis()] and [angle()]. *)
Theorem of_axis_angle_axis_angle (q : vnl_quaternion) :
  squared_norm q = 1 -> of_axis_angle (fst (axis q)) (angle q) = q.
Proof.
  intros H.
  destruct (atan2_unit_circle _ _ (unit_circle_of_unit q H)) as [S C].
  unfold of_axis_angle, angle.
  replace (2 * atan2 (magnitude (imaginary q)) (real q) * (5 / 10))
    with (atan2 (magnitude (imaginary q)) (real q)) by lra.
  rewrite S, C.
  destruct (Req_dec_T (magnitude (imaginary q)) 0) as [E|N].
  - rewrite E. pose proof E as Z. apply magnitude_zero in Z.
    destruct q as [qx qy qz qr]. unfold imaginary in Z. cbv [x y z] in Z.
    injection Z as -> -> ->. unfold real. cbv [r].
    f_equal; ring.
  - rewrite axis_nonzero by exact N.
    destruct q as [qx qy qz qr]. unfold real, imaginary, vdiv in *.
    cbv [fst x y z r v0 v1 v2] in *.
    f_equal; field; exact N.
Qed.

Lemma of_axis_angle_axis_angle_witness :
  of_axis_angle (fst (axis (mkQ (3/5) 0 0 (4/5)))) (angle (mkQ (3/5) 0 0 (4/5)))
  = mkQ (3/5) 0 0 (4/5).
Proof.
  apply of_axis_angle_axis_angle. exact sample_unit.
Defined.

(** ** Euler angles, continued *)

(** X23: whatever the quaternion and the threshold, the angles
    [rotation_euler_angles()] returns lie in (-PI, PI] about X and Z and in
    [-PI/2, PI/2] about Y. *)
Theorem rotation_euler_angles_range (epsilon : R) (q : vnl_quaternion) :
  - PI < v0 (rotation_euler_angles epsilon q) <= PI
  /\ - (PI / 2) <= v1 (rotation_euler_angles epsilon q) <= PI / 2
  /\ - PI < v2 (rotation_euler_angles epsilon q) <= PI.
Proof.
  pose proof PI_RGT_0 as P.
  unfold rotation_euler_angles.
  destruct (Rgt_dec _ _); cbv [v0 v1 v2];
    repeat split;
    try apply atan2_range; try (apply atan2_right_half; apply sqrt_pos);
    lra.
Qed.

(** The entries of the transposed rotation matrix of [Rz * Ry * Rx] that the
    degenerate branch of [rotation_euler_angles] reads. *)
Lemma euler_matrix_middle (a b c : R) :
  let m := rotation_matrix_transpose
             (qmul (qmul (mkQ 0 0 (sin c) (cos c)) (mkQ 0 (sin b) 0 (cos b)))
                   (mkQ (sin a) 0 0 (cos a))) in
  m11 m = sin (2 * c) * sin (2 * b) * sin (2 * a) + cos (2 * c) * cos (2 * a)
  /\ m21 m
     = sin (2 * c) * sin (2 * b) * cos (2 * a) - cos (2 * c) * sin (2 * a).
Proof.
  intros m. unfold m. clear m. unfold_vnl.
  rewrite !cos_2a, !sin_2a.
  pose proof (sin_cos_square a) as Ha.
  pose proof (sin_cos_square b) as Hb.
  pose proof (sin_cos_square c) as Hc.
  generalize dependent (sin a). generalize dependent (cos a).
  generalize dependent (sin b). generalize dependent (cos b).
  generalize dependent (sin c). generalize dependent (cos c).
  intros cc sc Hc cb sb Hb ca sa Ha.
  split; nsatz.
Qed.

Lemma euler_entries (theta_X theta_Y theta_Z : R) :
  let m := rotation_matrix_transpose (of_euler theta_X theta_Y theta_Z) in
  m00 m = cos theta_Y * cos theta_Z
  /\ m01 m = cos theta_Y * sin theta_Z
  /\ m02 m = - sin theta_Y
  /\ m11 m = sin theta_Z * sin theta_Y * sin theta_X
             + cos theta_Z * cos theta_X
  /\ m21 m = sin theta_Z * sin theta_Y * cos theta_X
             - cos theta_Z * sin theta_X.
Proof.
  intros m.
  pose proof (euler_matrix (theta_X * (5 / 10)) (theta_Y * (5 / 10))
                (theta_Z * (5 / 10))) as E.
  pose proof (euler_matrix_middle (theta_X * (5 / 10)) (theta_Y * (5 / 10))
                (theta_Z * (5 / 10))) as F.
  fold (of_euler theta_X theta_Y theta_Z) in E, F. fold m in E, F.
  replace (2 * (theta_X * (5 / 10))) with theta_X in E, F by lra.
  replace (2 * (theta_Y * (5 / 10))) with theta_Y in E, F by lra.
  replace (2 * (theta_Z * (5 / 10))) with theta_Z in E, F by lra.
  cbv zeta in E, F.
  destruct E as (E00 & E01 & E02 & _), F as (F11 & F21).
  repeat split; assumption.
Qed.

Lemma gimbal_lock (epsilon theta_X theta_Y theta_Z : R) :
  0 <= epsilon -> cos theta_Y = 0 ->
  let m := rotation_matrix_transpose (of_euler theta_X theta_Y theta_Z) in
  rotation_euler_angles epsilon (of_euler theta_X theta_Y theta_Z)
  = mkV3 (atan2 (- m21 m) (m11 m)) (atan2 (sin theta_Y) 0) 0.
Proof.
  intros He Hc m.
  destruct (euler_entries theta_X theta_Y theta_Z)
    as (E00 & E01 & E02 & _). fold m in E00, E01, E02.
  assert (XY : sqrt (m00 m * m00 m + m01 m * m01 m) = 0).
  { rewrite E00, E01, Hc. apply sqrt_of_square; lra. }
  rewrite rotation_euler_angles_degenerate; fold m; rewrite XY; [|lra].
  rewrite E02, Ropp_involutive. reflexivity.
Qed.

(** X24: at gimbal lock the rotation about Z is folded into the one about
    X.  For [theta_Y = PI/2] the angles read back are
    [(theta_X - theta_Z, PI/2, 0)]; for [theta_Y = -PI/2] they are
    [(theta_X + theta_Z, -PI/2, 0)]. *)
Theorem rotation_euler_angles_gimbal_lock (epsilon theta_X theta_Z : R) :
  0 <= epsilon ->
  (- PI < theta_X - theta_Z <= PI ->
   rotation_euler_angles epsilon (of_euler theta_X (PI / 2) theta_Z)
   = mkV3 (theta_X - theta_Z) (PI / 2) 0)
  /\ (- PI < theta_X + theta_Z <= PI ->
      rotation_euler_angles epsilon (of_euler theta_X (- (PI / 2)) theta_Z)
      = mkV3 (theta_X + theta_Z) (- (PI / 2)) 0).
Proof.
  intros He. split; intros Hr.
  - rewrite gimbal_lock by (assumption || apply cos_PI2).
    destruct (euler_entries theta_X (PI / 2) theta_Z)
      as (_ & _ & _ & E11 & E21).
    rewrite E11, E21, sin_PI2, atan2_up by lra.
    replace (- (sin theta_Z * 1 * cos theta_X - cos theta_Z * sin theta_X))
      with (1 * sin (theta_X - theta_Z)) by (rewrite sin_minus; ring).
    replace (sin theta_Z * 1 * sin theta_X + cos theta_Z * cos theta_X)
      with (1 * cos (theta_X - theta_Z)) by (rewrite cos_minus; ring).
    rewrite atan2_polar by (assumption || lra). reflexivity.
  - rewrite gimbal_lock by (assumption || (rewrite cos_neg; apply cos_PI2)).
    destruct (euler_entries theta_X (- (PI / 2)) theta_Z)
      as (_ & _ & _ & E11 & E21).
    rewrite E11, E21, sin_neg, sin_PI2, atan2_down by lra.
    replace (- (sin theta_Z * - (1) * cos theta_X - cos theta_Z * sin theta_X))
      with (1 * sin (theta_X + theta_Z)) by (rewrite sin_plus; ring).
    replace (sin theta_Z * - (1) * sin theta_X + cos theta_Z * cos theta_X)
      with (1 * cos (theta_X + theta_Z)) by (rewrite cos_plus; ring).
    rewrite atan2_polar by (assumption || lra). reflexivity.
Qed.

Lemma rotation_euler_angles_gimbal_lock_witness :
  rotation_euler_angles (/ 4503599627370496) (of_euler 1 (PI / 2) (1 / 2))
  = mkV3 (1 - 1 / 2) (PI / 2) 0.
Proof.
  pose proof PI2_1 as P.
  apply (proj1 (rotation_euler_angles_gimbal_lock
                  (/ 4503599627370496) 1 (1 / 2) ltac:(lra))).
  lra.
Defined.

Lemma atan2_scale (rho s c : R) :
  0 < rho -> atan2 (rho * s) (rho * c) = atan2 s c.
Proof.
  intros H. unfold atan2.
  destruct (Rlt_dec 0 c), (Rlt_dec 0 (rho * c)); try nra.
  - now rewrite polar_quotient by lra.
  - destruct (Rlt_dec c 0), (Rlt_dec (rho * c) 0); try nra.
    + rewrite polar_quotient by lra.
      destruct (Rle_dec 0 s), (Rle_dec 0 (rho * s)); try nra; reflexivity.
    + destruct (Rlt_dec 0 s), (Rlt_dec 0 (rho * s)); try nra; try reflexivity.
      destruct (Rlt_dec s 0), (Rlt_dec (rho * s) 0); try nra; reflexivity.
Qed.

(** The angle of a point at distance [rho] from the origin. *)
Lemma atan2_circle (rho s c : R) :
  0 < rho -> s * s + c * c = rho * rho ->
  sin (atan2 s c) = s / rho /\ cos (atan2 s c) = c / rho.
Proof.
  intros H E.
  rewrite <- (atan2_scale (/ rho) s c) by (apply Rinv_0_lt_compat; exact H).
  replace (s / rho) with (/ rho * s) by (field; lra).
  replace (c / rho) with (/ rho * c) by (field; lra).
  apply atan2_unit_circle. field_simplify_eq; lra.
Qed.

(** The remaining entries of the transposed rotation matrix of
    [Rz * Ry * Rx]. *)
Lemma euler_matrix_rest (a b c : R) :
  let m := rotation_matrix_transpose
             (qmul (qmul (mkQ 0 0 (sin c) (cos c)) (mkQ 0 (sin b) 0 (cos b)))
                   (mkQ (sin a) 0 0 (cos a))) in
  m10 m = cos (2 * c) * sin (2 * b) * sin (2 * a) - sin (2 * c) * cos (2 * a)
  /\ m20 m
     = cos (2 * c) * sin (2 * b) * cos (2 * a) + sin (2 * c) * sin (2 * a).
Proof.
  intros m. unfold m. clear m. unfold_vnl.
  rewrite !cos_2a, !sin_2a.
  pose proof (sin_cos_square a) as Ha.
  pose proof (sin_cos_square b) as Hb.
  pose proof (sin_cos_square c) as Hc.
  generalize dependent (sin a). generalize dependent (cos a).
  generalize dependent (sin b). generalize dependent (cos b).
  generalize dependent (sin c). generalize dependent (cos c).
  intros cc sc Hc cb sb Hb ca sa Ha.
  split; nsatz.
Qed.

(** The transposed rotation matrix of the Euler constructor, entry by
    entry. *)
Lemma rotation_matrix_of_euler (tx ty tz : R) :
  rotation_matrix_transpose (of_euler tx ty tz)
  = mkM33 (cos ty * cos tz) (cos ty * sin tz) (- sin ty)
          (cos tz * sin ty * sin tx - sin tz * cos tx)
          (sin tz * sin ty * sin tx + cos tz * cos tx)
          (cos ty * sin tx)
          (cos tz * sin ty * cos tx + sin tz * sin tx)
          (sin tz * sin ty * cos tx - cos tz * sin tx)
          (cos ty * cos tx).
Proof.
  pose proof (euler_matrix (tx * (5 / 10)) (ty * (5 / 10)) (tz * (5 / 10)))
    as E.
  pose proof (euler_matrix_middle (tx * (5 / 10)) (ty * (5 / 10))
                (tz * (5 / 10))) as F.
  pose proof (euler_matrix_rest (tx * (5 / 10)) (ty * (5 / 10))
                (tz * (5 / 10))) as G.
  fold (of_euler tx ty tz) in E, F, G.
  replace (2 * (tx * (5 / 10))) with tx in E, F, G by lra.
  replace (2 * (ty * (5 / 10))) with ty in E, F, G by lra.
  replace (2 * (tz * (5 / 10))) with tz in E, F, G by lra.
  cbv zeta in E, F, G.
  destruct E as (E00 & E01 & E02 & E12 & E22), F as (F11 & F21),
           G as (G10 & G20).
  destruct (rotation_matrix_transpose (of_euler tx ty tz))
    as [b00 b01 b02 b10 b11 b12 b20 b21 b22].
  cbv [m00 m01 m02 m10 m11 m12 m20 m21 m22] in *.
  subst. reflexivity.
Qed.

Lemma qopp_involutive (q : vnl_quaternion) : qopp (qopp q) = q.
Proof.
  destruct q as [qx qy qz qr]. unfold qopp. cbv [x y z r]. f_equal; ring.
Qed.

(** Two unit quaternions with the same matrix are equal or opposite. *)
Lemma rotation_matrix_injective (p q : vnl_quaternion) :
  squared_norm p = 1 -> squared_norm q = 1 ->
  rotation_matrix_transpose p = rotation_matrix_transpose q ->
  p = q \/ p = qopp q.
Proof.
  intros Hp Hq E.
  pose proof (of_matrix_encodes _ _ (rotation_matrix_transpose_encodes p Hp))
    as A.
  pose proof (of_matrix_encodes _ _ (rotation_matrix_transpose_encodes q Hq))
    as B.
  rewrite E in A.
  destruct A as [A|A], B as [B|B]; rewrite A in B.
  - now left.
  - now right.
  - right. rewrite <- B. symmetry. apply qopp_involutive.
  - left. rewrite <- (qopp_involutive p), B. apply qopp_involutive.
Qed.

(** Relations between the entries of the matrix of a quaternion: the
    cofactors, and the squared lengths of a row and of a column. *)
Lemma cofactor_11 (q : vnl_quaternion) :
  let m := rotation_matrix_transpose q in
  - m01 m * m02 m * m12 m + m00 m * m22 m * squared_norm q
  = m11 m * (m00 m * m00 m + m01 m * m01 m).
Proof.
  destruct q as [qx qy qz qr]. unfold_vnl. ring.
Qed.
Lemma cofactor_21 (q : vnl_quaternion) :
  let m := rotation_matrix_transpose q in
  - m01 m * m02 m * m22 m - m00 m * m12 m * squared_norm q
  = m21 m * (m00 m * m00 m + m01 m * m01 m).
Proof.
  destruct q as [qx qy qz qr]. unfold_vnl. ring.
Qed.
Lemma cofactor_10 (q : vnl_quaternion) :
  let m := rotation_matrix_transpose q in
  - m00 m * m02 m * m12 m - m01 m * m22 m * squared_norm q
  = m10 m * (m00 m * m00 m + m01 m * m01 m).
Proof.
  destruct q as [qx qy qz qr]. unfold_vnl. ring.
Qed.
Lemma cofactor_20 (q : vnl_quaternion) :
  let m := rotation_matrix_transpose q in
  - m00 m * m02 m * m22 m + m01 m * m12 m * squared_norm q
  = m20 m * (m00 m * m00 m + m01 m * m01 m).
Proof.
  destruct q as [qx qy qz qr]. unfold_vnl. ring.
Qed.
Lemma column_2_length (q : vnl_quaternion) :
  let m := rotation_matrix_transpose q in
  m02 m * m02 m + m12 m * m12 m + m22 m * m22 m = squared_norm q * squared_norm q.
Proof.
  destruct q as [qx qy qz qr]. unfold_vnl. ring.
Qed.
Lemma row_0_length (q : vnl_quaternion) :
  let m := rotation_matrix_transpose q in
  m00 m * m00 m + m01 m * m01 m + m02 m * m02 m = squared_norm q * squared_norm q.
Proof.
  destruct q as [qx qy qz qr]. unfold_vnl. ring.
Qed.

Lemma euler_regular_matrix (epsilon : R) (q : vnl_quaternion) :
  squared_norm q = 1 -> 0 <= epsilon ->
  let m := rotation_matrix_transpose q in
  sqrt (m00 m * m00 m + m01 m * m01 m) > 8 * epsilon ->
  let e := rotation_euler_angles epsilon q in
  rotation_matrix_transpose (of_euler (v0 e) (v1 e) (v2 e))
  = rotation_matrix_transpose q.
Proof.
  intros U He m Hxy e. unfold e.
  rewrite rotation_euler_angles_regular by exact Hxy. fold m.
  cbv [v0 v1 v2]. rewrite rotation_matrix_of_euler.
  remember (sqrt (m00 m * m00 m + m01 m * m01 m)) as rho eqn:Hrho.
  assert (Hpos : 0 < rho) by lra.
  assert (Hsq : m00 m * m00 m + m01 m * m01 m = rho * rho).
  { subst rho. symmetry. apply sqrt_sqrt. nra. }
  clear Hrho Hxy e.
  pose proof (cofactor_11 q) as C11. pose proof (cofactor_21 q) as C21.
  pose proof (cofactor_10 q) as C10. pose proof (cofactor_20 q) as C20.
  pose proof (column_2_length q) as L2. pose proof (row_0_length q) as L0.
  cbv zeta in C11, C21, C10, C20, L2, L0. fold m in C11, C21, C10, C20, L2, L0.
  rewrite U, Hsq in *. clear U.
  assert (Hy : (- m02 m) * (- m02 m) + rho * rho = 1) by lra.
  assert (Hx : m12 m * m12 m + m22 m * m22 m = rho * rho) by lra.
  assert (Hz : m01 m * m01 m + m00 m * m00 m = rho * rho) by lra.
  destruct (atan2_unit_circle _ _ Hy) as [Sy Cy].
  destruct (atan2_circle rho _ _ Hpos Hx) as [Sx Cx].
  destruct (atan2_circle rho _ _ Hpos Hz) as [Sz Cz].
  rewrite Sx, Cx, Sy, Cy, Sz, Cz.
  clear Sx Cx Sy Cy Sz Cz Hx Hy Hz L0 L2.
  destruct m as [b00 b01 b02 b10 b11 b12 b20 b21 b22].
  cbv [m00 m01 m02 m10 m11 m12 m20 m21 m22] in *.
  f_equal; try (field; lra).
  - transitivity ((- b00 * b02 * b12 - b01 * b22 * 1) / (rho * rho));
      [field; lra | rewrite C10; field; lra].
  - transitivity ((- b01 * b02 * b12 + b00 * b22 * 1) / (rho * rho));
      [field; lra | rewrite C11; field; lra].
  - transitivity ((- b00 * b02 * b22 + b01 * b12 * 1) / (rho * rho));
      [field; lra | rewrite C20; field; lra].
  - transitivity ((- b01 * b02 * b22 - b00 * b12 * 1) / (rho * rho));
      [field; lra | rewrite C21; field; lra].
Qed.

(** X25: away from gimbal lock the Euler angles of a unit quaternion are
    right: the quaternion constructed from them has the same matrix, so it is
    the quaternion itself or its opposite. *)
Theorem of_euler_rotation_euler_angles (epsilon : R) (q : vnl_quaternion) :
  squared_norm q = 1 -> 0 <= epsilon ->
  sqrt (m00 (rotation_matrix_transpose q) * m00 (rotation_matrix_transpose q)
        + m01 (rotation_matrix_transpose q) * m01 (rotation_matrix_transpose q))
  > 8 * epsilon ->
  let e := rotation_euler_angles epsilon q in
  rotation_matrix_transpose (of_euler (v0 e) (v1 e) (v2 e))
  = rotation_matrix_transpose q
  /\ (of_euler (v0 e) (v1 e) (v2 e) = q
      \/ of_euler (v0 e) (v1 e) (v2 e) = qopp q).
Proof.
  intros U He Hxy e.
  pose proof (euler_regular_matrix epsilon q U He Hxy) as E.
  split; [exact E|].
  apply rotation_matrix_injective; [|exact U|exact E].
  apply of_euler_unit.
Qed.

Lemma of_euler_rotation_euler_angles_witness :
  let q := mkQ (3/5) 0 0 (4/5) in
  let e := rotation_euler_angles (/ 4503599627370496) q in
  of_euler (v0 e) (v1 e) (v2 e) = q \/ of_euler (v0 e) (v1 e) (v2 e) = qopp q.
Proof.
  intros q.
  refine (proj2 (of_euler_rotation_euler_angles (/ 4503599627370496) q
                   sample_unit ltac:(lra) _)).
  unfold q. unfold_vnl.
  match goal with
  | |- sqrt ?t > _ => rewrite (sqrt_of_square t 1) by lra
  end.
  lra.
Defined.

Lemma cofactor_10' (q : vnl_quaternion) :
  let m := rotation_matrix_transpose q in
  m02 m * m21 m - m01 m * m22 m = m10 m * squared_norm q.
Proof.
  destruct q as [qx qy qz qr]. unfold_vnl. ring.
Qed.

Lemma cofactor_20' (q : vnl_quaternion) :
  let m := rotation_matrix_transpose q in
  m01 m * m12 m - m02 m * m11 m = m20 m * squared_norm q.
Proof.
  destruct q as [qx qy qz qr]. unfold_vnl. ring.
Qed.

Lemma column_1_length (q : vnl_quaternion) :
  let m := rotation_matrix_transpose q in
  m01 m * m01 m + m11 m * m11 m + m21 m * m21 m
  = squared_norm q * squared_norm q.
Proof.
  destruct q as [qx qy qz qr]. unfold_vnl. ring.
Qed.

Lemma euler_degenerate_matrix (epsilon : R) (q : vnl_quaternion) :
  squared_norm q = 1 -> 0 <= epsilon ->
  let m := rotation_matrix_transpose q in
  sqrt (m00 m * m00 m + m01 m * m01 m) = 0 ->
  let e := rotation_euler_angles epsilon q in
  rotation_matrix_transpose (of_euler (v0 e) (v1 e) (v2 e))
  = rotation_matrix_transpose q.
Proof.
  intros U He m Hxy e. unfold e.
  rewrite rotation_euler_angles_degenerate by (fold m; lra). fold m.
  rewrite Hxy.
  cbv [v0 v1 v2]. rewrite rotation_matrix_of_euler.
  apply sqrt_eq_0 in Hxy; [|nra].
  assert (Z0 : m00 m = 0) by nra. assert (Z1 : m01 m = 0) by nra.
  clear Hxy e.
  pose proof (cofactor_10' q) as C10. pose proof (cofactor_20' q) as C20.
  pose proof (column_2_length q) as L2. pose proof (row_0_length q) as L0.
  pose proof (column_1_length q) as L1.
  cbv zeta in C10, C20, L2, L0, L1. fold m in C10, C20, L2, L0, L1.
  rewrite U, ?Z0, ?Z1 in *. clear U.
  assert (Z12 : m12 m = 0) by nra. assert (Z22 : m22 m = 0) by nra.
  assert (Hy : (- m02 m) * (- m02 m) + 0 * 0 = 1) by lra.
  assert (Hx : (- m21 m) * (- m21 m) + m11 m * m11 m = 1) by lra.
  destruct (atan2_unit_circle _ _ Hy) as [Sy Cy].
  destruct (atan2_unit_circle _ _ Hx) as [Sx Cx].
  rewrite Sx, Cx, Sy, Cy, sin_0, cos_0.
  clear Sx Cx Sy Cy Hx Hy L0 L1 L2.
  destruct m as [b00 b01 b02 b10 b11 b12 b20 b21 b22].
  cbv [m00 m01 m02 m10 m11 m12 m20 m21 m22] in *.
  subst. f_equal; lra.
Qed.

(** X26: at an exact gimbal lock too ([xy] is 0) the Euler angles of a unit
    quaternion, with the angle about Z set to 0, give back its matrix, hence
    the quaternion or its opposite. *)
Theorem of_euler_rotation_euler_angles_locked (epsilon : R)
    (q : vnl_quaternion) :
  squared_norm q = 1 -> 0 <= epsilon ->
  sqrt (m00 (rotation_matrix_transpose q) * m00 (rotation_matrix_transpose q)
        + m01 (rotation_matrix_transpose q) * m01 (rotation_matrix_transpose q))
  = 0 ->
  let e := rotation_euler_angles epsilon q in
  v2 e = 0
  /\ rotation_matrix_transpose (of_euler (v0 e) (v1 e) (v2 e))
     = rotation_matrix_transpose q
  /\ (of_euler (v0 e) (v1 e) (v2 e) = q
      \/ of_euler (v0 e) (v1 e) (v2 e) = qopp q).
Proof.
  intros U He Hxy e.
  pose proof (euler_degenerate_matrix epsilon q U He Hxy) as E.
  split; [|split; [exact E|]].
  - unfold e. rewrite rotation_euler_angles_degenerate by (cbv zeta; lra).
    reflexivity.
  - apply rotation_matrix_injective; [apply of_euler_unit|exact U|exact E].
Qed.

Lemma sample_locked : squared_norm (mkQ (1/2) (-1/2) (1/2) (1/2)) = 1.
Proof. unfold_vnl. lra. Qed.

Lemma of_euler_rotation_euler_angles_locked_witness :
  let q := mkQ (1/2) (-1/2) (1/2) (1/2) in
  let e := rotation_euler_angles (/ 4503599627370496) q in
  of_euler (v0 e) (v1 e) (v2 e) = q \/ of_euler (v0 e) (v1 e) (v2 e) = qopp q.
Proof.
  intros q.
  refine (proj2 (proj2 (of_euler_rotation_euler_angles_locked
                          (/ 4503599627370496) q sample_locked
                          ltac:(lra) _))).
  unfold q. unfold_vnl. apply sqrt_of_square; lra.
Defined.

(** ** Construction from a matrix, continued *)

Lemma sqrt_ge_2 (t : R) : 1 <= t -> 2 <= sqrt (t * 4).
Proof.
  intros H. rewrite <- (sqrt_of_square 4 2) by lra.
  apply sqrt_le_1_alt. lra.
Qed.

(** X27: [of_matrix] never divides by zero.  For every matrix the selected
    term is at least 1, so the divisor [sqrt (term * 4)] is at least 2, and
    the component of the selected term in the result is at least 1/2. *)
Theorem of_matrix_divisor (rot : vnl_matrix_fixed33) :
  1 <= term_value rot (selected_term rot)
  /\ 2 <= sqrt (term_value rot (selected_term rot) * 4)
  /\ 1 / 2 <= component (of_matrix rot) (selected_term rot).
Proof.
  pose proof (selected_term_ge_1 rot) as H.
  pose proof (sqrt_ge_2 _ H) as S.
  split; [exact H|]. split; [exact S|].
  rewrite of_matrix_derive.
  destruct (selected_term rot); unfold derive, component; cbv [x y z r]; lra.
Qed.

(** ** Angle and axis of the constructed quaternion *)

Lemma magnitude_imaginary_conjugate (q : vnl_quaternion) :
  magnitude (imaginary (conjugate q)) = magnitude (imaginary q).
Proof.
  destruct q as [qx qy qz qr]. unfold magnitude, imaginary, conjugate.
  cbv [x y z v0 v1 v2]. f_equal. ring.
Qed.

(** X28: in exact real arithmetic, the conjugate has the same angle and,
    when the imaginary part is not zero, the opposite axis. *)
Theorem conjugate_angle_axis (q : vnl_quaternion) :
  angle (conjugate q) = angle q
  /\ (imaginary q <> mkV3 0 0 0 ->
      fst (axis (conjugate q)) = vscale (fst (axis q)) (-1)).
Proof.
  split.
  - unfold angle. now rewrite magnitude_imaginary_conjugate.
  - intros N.
    assert (M : magnitude (imaginary q) <> 0).
    { intros E. apply N. now apply magnitude_zero. }
    rewrite !axis_nonzero; rewrite ?magnitude_imaginary_conjugate; try exact M.
    destruct q as [qx qy qz qr]. unfold vscale, vdiv, imaginary, conjugate.
    cbv [fst x y z v0 v1 v2]. f_equal; field; exact M.
Qed.

Lemma conjugate_angle_axis_witness :
  fst (axis (conjugate (mkQ 3 0 4 1))) = vscale (fst (axis (mkQ 3 0 4 1))) (-1).
Proof.
  apply (proj2 (conjugate_angle_axis (mkQ 3 0 4 1))).
  unfold imaginary. cbv [x y z]. intros E. injection E as E _. lra.
Defined.

Lemma magnitude_of_axis_angle_abs (ax : vnl_vector_fixed3) (a : R) :
  magnitude ax = 1 ->
  magnitude (imaginary (of_axis_angle ax a)) = Rabs (sin (a * (5 / 10))).
Proof.
  intros U. apply unit_magnitude in U.
  unfold magnitude, imaginary, of_axis_angle. cbv [x y z v0 v1 v2] in *.
  destruct ax as [a0 a1 a2]. cbv [v0 v1 v2] in *.
  rewrite <- sqrt_Rsqr_abs. f_equal. unfold Rsqr. nsatz.
Qed.

(** X29: in exact real arithmetic, [angle()] is never negative.  From a
    unit axis and an angle in (-2 PI, 0), the quaternion reads back as the
    opposite angle about the opposite axis; from an angle in (0, 2 PI) it
    reads back as constructed. *)
Theorem axis_angle_sign (ax : vnl_vector_fixed3) (a : R) :
  magnitude ax = 1 ->
  (0 < a < 2 * PI ->
   angle (of_axis_angle ax a) = a
   /\ fst (axis (of_axis_angle ax a)) = ax)
  /\ (- (2 * PI) < a < 0 ->
      angle (of_axis_angle ax a) = - a
      /\ fst (axis (of_axis_angle ax a)) = vscale ax (-1)).
Proof.
  intros U. pose proof PI_RGT_0 as P.
  pose proof (magnitude_of_axis_angle_abs ax a U) as M.
  split; intros Ha.
  - assert (S : 0 < sin (a * (5 / 10))) by (apply sin_gt_0; lra).
    rewrite Rabs_right in M by lra. split.
    + unfold angle. rewrite M. unfold real, of_axis_angle. cbv [r].
      rewrite <- (Rmult_1_l (sin _)), <- (Rmult_1_l (cos _)).
      rewrite atan2_polar by lra. lra.
    + rewrite axis_nonzero; rewrite M; [|lra].
      destruct ax as [a0 a1 a2].
      unfold vdiv, imaginary, of_axis_angle. cbv [fst x y z v0 v1 v2].
      f_equal; field; lra.
  - assert (S : sin (a * (5 / 10)) < 0).
    { rewrite <- (Ropp_involutive (a * (5 / 10))), sin_neg.
      pose proof (sin_gt_0 (- (a * (5 / 10)))). lra. }
    rewrite Rabs_left in M by lra. split.
    + unfold angle. rewrite M. unfold real, of_axis_angle. cbv [r].
      rewrite <- sin_neg, <- (cos_neg (a * (5 / 10))).
      rewrite <- (Rmult_1_l (sin _)), <- (Rmult_1_l (cos _)).
      rewrite atan2_polar by lra. lra.
    + rewrite axis_nonzero; rewrite M; [|lra].
      destruct ax as [a0 a1 a2].
      unfold vdiv, vscale, imaginary, of_axis_angle. cbv [fst x y z v0 v1 v2].
      f_equal; field; lra.
Qed.

Lemma axis_angle_sign_witness :
  angle (of_axis_angle (mkV3 (3/5) 0 (4/5)) (-1)) = - -1
  /\ fst (axis (of_axis_angle (mkV3 (3/5) 0 (4/5)) (-1)))
     = vscale (mkV3 (3/5) 0 (4/5)) (-1).
Proof.
  pose proof PI2_1 as P.
  apply (proj2 (axis_angle_sign (mkV3 (3/5) 0 (4/5)) (-1) magnitude_sample)).
  lra.
Defined.
